(** * Hybrid scraping engine: a shallow embedding of [parser.ts],
      [llm-extractor.ts] and [hybrid-engine.ts]

    Conventions of the embedding.

    - JavaScript strings are [string]s: sequences of code units below 256
      (Latin-1).  On these [toLowerCase] folds the letters [A]..[Z] and the
      capital letters from 192 to 222 (the multiplication sign apart);
      [trim] and the white space class of a pattern strip the tab, the line
      feed, the vertical tab, the form feed, the carriage return, the space
      and the no-break space; [length] counts code units.  Code units from
      256 on are outside the model.
    - A JavaScript object used as a record of fields is an association list
      of its own properties in property order ([Obj]), with
      [Object.prototype] behind it: a read [o[k]] finds the own property or
      else the member every object inherits under that name
      ([Object.inherited]); [Object.keys] and the spread see own properties
      only; a write [o[k] = v] makes or updates an own property.  The one
      write that would do something else, an assignment to the name
      [__proto__], is not modelled.
    - A [number] is the rational a double denotes, or one of [NaN],
      [Infinity] and [-Infinity].  The confidence of the rule-based pass is
      computed in binary64 arithmetic ([PrimFloat]), with the roundings of
      JavaScript, and then read as a [number].  The literals [0.3], [0.5]
      and [0.6] a confidence is compared with are taken as the rationals
      3/10, 1/2 and 6/10: the doubles written [0.3] and [0.6] lie just below
      3/10 and 6/10 with no double in between, so no comparison of a double
      changes.  Page counts are integers ([Z]).
    - The page-fetch service, the completion service and the clock are a
      [World]: the n-th call of a run receives the n-th answer, which is a
      value or a thrown exception.  Code that awaits them runs in the monad
      [Run], which threads the call counters.  Time stamps and elapsed times
      that only decorate a result are left out of the records. *)

From Stdlib Require Import String Ascii List Bool Arith ZArith QArith Lia Lqa.
From Stdlib Require Import DecimalString Uint63 Floats.
Import ListNotations.

Set Warnings "-register-all".
Set Warnings "-inexact-float".

Local Close Scope Q_scope.
Local Open Scope nat_scope.
Local Open Scope list_scope.
Local Open Scope string_scope.

(** ** Strings *)

Module JSString.

(** The lower-case form of a code unit: the letters [A]..[Z] and the
    capital letters of Latin-1 (192 to 222, except the multiplication sign
    215) have one, 32 places on. *)
Definition lowerChar (c : ascii) : ascii :=
  let n := nat_of_ascii c in
  if ((65 <=? n)%nat && (n <=? 90)%nat
      || (192 <=? n)%nat && (n <=? 222)%nat && negb (n =? 215)%nat)%bool
  then ascii_of_nat (n + 32) else c.

(** [s.toLowerCase()] *)
Fixpoint toLowerCase (s : string) : string :=
  match s with
  | EmptyString => EmptyString
  | String c s' => String (lowerChar c) (toLowerCase s')
  end.

(** [s.includes(sub)] *)
Fixpoint includes (s sub : string) : bool :=
  String.prefix sub s ||
  match s with
  | EmptyString => false
  | String _ s' => includes s' sub
  end.

(** White space and line terminators: what [trim] strips and the class
    [\s] of a pattern matches.  Below 256 these are the code units 9 to 13,
    the space (32) and the no-break space (160). *)
Definition isWhite (c : ascii) : bool :=
  let n := nat_of_ascii c in
  ((9 <=? n)%nat && (n <=? 13)%nat || (n =? 32)%nat || (n =? 160)%nat)%bool.

Fixpoint trimStart (s : string) : string :=
  match s with
  | EmptyString => EmptyString
  | String c s' => if isWhite c then trimStart s' else s
  end.

Fixpoint trimEnd (s : string) : string :=
  match s with
  | EmptyString => EmptyString
  | String c s' =>
      match trimEnd s' with
      | EmptyString => if isWhite c then EmptyString else String c EmptyString
      | t => String c t
      end
  end.

(** [s.trim()] *)
Definition trim (s : string) : string := trimEnd (trimStart s).

Definition newline : ascii := ascii_of_nat 10.

(** [s.split('\n')]: the result always has at least one element. *)
Fixpoint splitLines (s : string) : list string :=
  match s with
  | EmptyString => [EmptyString]
  | String c s' =>
      if Ascii.eqb c newline then EmptyString :: splitLines s'
      else match splitLines s' with
           | [] => [String c EmptyString]
           | l :: ls => String c l :: ls
           end
  end.

(** [xs.join(sep)] *)
Fixpoint join (sep : string) (xs : list string) : string :=
  match xs with
  | [] => EmptyString
  | [x] => x
  | x :: rest => x ++ sep ++ join sep rest
  end.

(** A string is truthy when it is not empty. *)
Definition nonEmpty (s : string) : bool :=
  match s with EmptyString => false | _ => true end.

Definition ofNat (n : nat) : string :=
  NilEmpty.string_of_uint (Nat.to_uint n).

End JSString.
Import JSString.

(** [keywords.some(keyword => text.includes(keyword))] *)
Definition containsKeywords (text : string) (keywords : list string) : bool :=
  existsb (fun keyword => includes text keyword) keywords.

(** ** Exceptions *)

(** What a [transform] callback does with a value: return or throw. *)
Inductive Thrown : Type :=
| ErrorObject (message : string)
| OtherValue.

Inductive Outcome (A : Type) : Type :=
| Returned (a : A)
| Threw (e : Thrown).
Arguments Returned {A} a.
Arguments Threw {A} e.

(** ** Numbers *)

Inductive number : Type :=
| Finite (q : Q)
| NotANumber
| PosInfinity
| NegInfinity.

Module Num.

(** The number a double is: finite doubles denote rationals (both zeros
    denote 0). *)
Definition ofFloat (x : float) : number :=
  match Prim2SF x with
  | S754_zero _ => Finite 0
  | S754_infinity false => PosInfinity
  | S754_infinity true => NegInfinity
  | S754_nan => NotANumber
  | S754_finite sign m e =>
      Finite ((if sign then - inject_Z (Z.pos m) else inject_Z (Z.pos m))
              * Qpower 2 e)%Q
  end.

(** The length of an array as a double (exact: lengths are below [2^32]). *)
Definition ofLength (n : nat) : float :=
  PrimFloat.of_uint63 (Uint63.of_Z (Z.of_nat n)).

(** [x < y] *)
Definition ltb (x y : number) : bool :=
  match x, y with
  | NotANumber, _ | _, NotANumber => false
  | Finite a, Finite b => negb (Qle_bool b a)
  | NegInfinity, NegInfinity => false
  | NegInfinity, _ => true
  | _, PosInfinity => match x with PosInfinity => false | _ => true end
  | _, _ => false
  end.

(** [x > y] *)
Definition gtb (x y : number) : bool := ltb y x.

Definition isZero (x : number) : bool :=
  match x with Finite q => Qeq_bool q 0 | _ => false end.

(** The value lies in the closed interval from 0 to 1. *)
Definition inUnitInterval (x : number) : Prop :=
  match x with
  | Finite q => (0 <= q /\ q <= 1)%Q
  | _ => False
  end.

End Num.

(** ** Values and objects *)

Inductive JSValue : Type :=
| VUndefined
| VNull
| VBool (b : bool)
| VNumber (n : number)
| VString (s : string)
| VArray (items : list JSValue)
| VObject (props : list (string * JSValue))
| VFunction (name : string).

(** An object: its own properties, in property order. *)
Definition Obj : Type := list (string * JSValue).

Definition strings (l : list string) : JSValue := VArray (map VString l).

(** The value converts to [true]. *)
Definition truthy (v : JSValue) : bool :=
  match v with
  | VUndefined | VNull => false
  | VBool b => b
  | VNumber NotANumber => false
  | VNumber n => negb (Num.isZero n)
  | VString s => nonEmpty s
  | VArray _ | VObject _ | VFunction _ => true
  end.

(** [v !== null && v !== undefined] *)
Definition notNullish (v : JSValue) : bool :=
  match v with
  | VUndefined | VNull => false
  | _ => true
  end.

(** [typeof v === 'string' && v.length < 10] *)
Definition shortString (v : JSValue) : bool :=
  match v with
  | VString s => (String.length s <? 10)%nat
  | _ => false
  end.

Module Object.

(** The own property [k], if there is one. *)
Fixpoint own (o : Obj) (k : string) : option JSValue :=
  match o with
  | [] => None
  | (k', v) :: o' => if String.eqb k k' then Some v else own o' k
  end.

(** The names of the methods of [Object.prototype]. *)
Definition prototypeMethods : list string :=
  ["constructor"; "__defineGetter__"; "__defineSetter__"; "hasOwnProperty";
   "__lookupGetter__"; "__lookupSetter__"; "isPrototypeOf";
   "propertyIsEnumerable"; "toString"; "valueOf"; "toLocaleString"].

(** What an object without an own property [k] still answers for [k]: a
    method of [Object.prototype], or under [__proto__] the prototype itself
    (an object, of which nothing is read here). *)
Definition inherited (k : string) : option JSValue :=
  if existsb (String.eqb k) prototypeMethods then Some (VFunction k)
  else if String.eqb k "__proto__" then Some (VObject [])
  else None.

(** The property a read of [o[k]] finds: the own one, else the inherited
    one. *)
Definition lookup (o : Obj) (k : string) : option JSValue :=
  match own o k with
  | Some v => Some v
  | None => inherited k
  end.

(** [o[k]] *)
Definition get (o : Obj) (k : string) : JSValue :=
  match lookup o k with
  | Some v => v
  | None => VUndefined
  end.

(** [Object.keys(o)] *)
Definition keys (o : Obj) : list string := map fst o.

(** [Object.entries(o)] *)
Definition entries (o : Obj) : list (string * JSValue) := o.

Definition digitOf (c : ascii) : option N :=
  let n := N_of_ascii c in
  if ((48 <=? n)%N && (n <=? 57)%N)%bool then Some (n - 48)%N else None.

Fixpoint digitsValue (acc : N) (s : string) : option N :=
  match s with
  | EmptyString => Some acc
  | String c s' =>
      match digitOf c with
      | Some d => digitsValue (10 * acc + d)%N s'
      | None => None
      end
  end.

(** A property name that is an array index (a canonical decimal below
    [2^32 - 1]): such keys come first in property order, ascending. *)
Definition arrayIndex (k : string) : option N :=
  match k with
  | EmptyString => None
  | String c rest =>
      if (Ascii.eqb c "0" && nonEmpty rest)%bool then None
      else match digitsValue 0 k with
           | Some n => if (n <? 4294967295)%N then Some n else None
           | None => None
           end
  end.

Fixpoint replace (k : string) (v : JSValue) (o : Obj) : Obj :=
  match o with
  | [] => []
  | (k', v') :: o' =>
      if String.eqb k k' then (k', v) :: o' else (k', v') :: replace k v o'
  end.

Fixpoint insertIndex (n : N) (k : string) (v : JSValue) (o : Obj) : Obj :=
  match o with
  | [] => [(k, v)]
  | (k', v') :: o' =>
      match arrayIndex k' with
      | Some m =>
          if (m <? n)%N then (k', v') :: insertIndex n k v o'
          else (k, v) :: o
      | None => (k, v) :: o
      end
  end.

(** [o[k] = v] *)
Definition set (k : string) (v : JSValue) (o : Obj) : Obj :=
  match own o k with
  | Some _ => replace k v o
  | None =>
      match arrayIndex k with
      | Some n => insertIndex n k v o
      | None => (o ++ [(k, v)])%list
      end
  end.

(** [{ ...o }]: values are immutable here, so the copy is the object. *)
Definition spread (o : Obj) : Obj := o.

End Object.

(** ** Rules ([types.ts]) *)

Record ParserRule : Type := {
  name : string;
  selector : string;
  attribute : option string;
  multiple : bool;      (* absent reads as false *)
  required : bool;      (* absent reads as false *)
  transform : option (JSValue -> Outcome JSValue)
}.

Record ParsedContent : Type := {
  success : bool;
  data : Obj;
  confidence : number;
  htmlContext : string;
  errors : option (list string)
}.

Inductive ExtractionSource : Type := parser | llm | hybrid | failed.

Record Metadata : Type := {
  extractionSource : ExtractionSource;
  metaHtmlContext : option string;
  explanation : option string
}.

Record ScrapedData : Type := {
  url : string;
  content : Obj;
  metadata : Metadata
}.

Record ScrapingSettings : Type := {
  maxPages : option Z;
  delay : option Z;
  timeout : option Z;
  followPagination : option bool;
  enableJavaScript : option bool
}.

(** What the page-fetch service returns for a page. *)
Record Extract : Type := {
  text : string;
  headings : option (list string);
  links : option (list string);
  images : option (list string)
}.

Record PageMetadata : Type := {
  metaTitle : option string;
  metaDescription : option string
}.

Record ScrapeResponse : Type := {
  markdown : string;
  pageMetadata : PageMetadata;
  extract : Extract;
  pageLinks : list string
}.

(** [x || d] for an optional array or string. *)
Definition orElse {A : Type} (x : option A) (d : A) : A :=
  match x with
  | Some a => a
  | None => d
  end.

Definition optString (x : option string) : JSValue :=
  match x with
  | Some s => VString s
  | None => VUndefined
  end.

(** ** The patterns of the parser

    A price is a dollar sign, one or more digits or commas, an optional dot
    and further digits; all matches are collected.  A rating is a number
    (digits, an optional dot, further digits), optional white space, then
    either [out of] or a slash, optional white space and digits, or else the
    word [star] with an optional [s]; letters match without regard to case
    and the leftmost match is taken.  In both patterns every repetition is
    followed by something it cannot itself match, so the greedy choice is
    the only one that can succeed. *)

Module Pattern.

Definition isDigit (c : ascii) : bool :=
  let n := nat_of_ascii c in
  ((48 <=? n)%nat && (n <=? 57)%nat)%bool.

Definition isPriceChar (c : ascii) : bool :=
  (isDigit c || Ascii.eqb c ",")%bool.

(** The longest prefix of characters satisfying [p], and what follows. *)
Fixpoint span (p : ascii -> bool) (s : string) : string * string :=
  match s with
  | EmptyString => (EmptyString, EmptyString)
  | String c s' =>
      if p c then let (a, b) := span p s' in (String c a, b)
      else (EmptyString, s)
  end.

(** A lower-case literal matched without regard to case: the matched text
    and what follows. *)
Fixpoint literal (lit s : string) : option (string * string) :=
  match lit, s with
  | EmptyString, _ => Some (EmptyString, s)
  | String a lit', String c s' =>
      if Ascii.eqb a (lowerChar c) then
        match literal lit' s' with
        | Some (m, r) => Some (String c m, r)
        | None => None
        end
      else None
  | String _ _, EmptyString => None
  end.

(** An optional dot. *)
Definition optDot (s : string) : string * string :=
  match s with
  | String c s' =>
      if Ascii.eqb c "." then (String c EmptyString, s') else (EmptyString, s)
  | EmptyString => (EmptyString, s)
  end.

(** [\d+\.?\d*] at the start of [s]. *)
Definition numberAt (s : string) : option (string * string) :=
  let (a, r1) := span isDigit s in
  if nonEmpty a then
    let (dot, r2) := optDot r1 in
    let (b, r3) := span isDigit r2 in
    Some (a ++ dot ++ b, r3)
  else None.

(** The price pattern at the start of [s]. *)
Definition priceAt (s : string) : option string :=
  match s with
  | String c r =>
      if Ascii.eqb c "$" then
        let (a, r1) := span isPriceChar r in
        if nonEmpty a then
          let (dot, r2) := optDot r1 in
          let (b, _) := span isDigit r2 in
          Some (String c (a ++ dot ++ b))
        else None
      else None
  | EmptyString => None
  end.

(** All the matches of the price pattern, left to right, none overlapping:
    [skip] characters still belong to the match before. *)
Fixpoint priceMatches (skip : nat) (s : string) : list string :=
  match s with
  | EmptyString => []
  | String _ s' =>
      match skip with
      | S k => priceMatches k s'
      | O =>
          match priceAt s with
          | Some m => m :: priceMatches (String.length m - 1) s'
          | None => priceMatches 0 s'
          end
      end
  end.

(** The rating pattern at the start of [s]. *)
Definition ratingAt (s : string) : option string :=
  match numberAt s with
  | None => None
  | Some (num, r) =>
      let (w, r1) := span isWhite r in
      let separator :=
        match literal "out of" r1 with
        | Some x => Some x
        | None => literal "/" r1
        end in
      let outOf :=
        match separator with
        | Some (sep, r2) =>
            let (w2, r3) := span isWhite r2 in
            let (d, _) := span isDigit r3 in
            if nonEmpty d then Some (num ++ w ++ sep ++ w2 ++ d) else None
        | None => None
        end in
      match outOf with
      | Some m => Some m
      | None =>
          match literal "star" r1 with
          | Some (star, r2) =>
              let plural :=
                match r2 with
                | String c _ =>
                    if Ascii.eqb (lowerChar c) "s" then String c EmptyString
                    else EmptyString
                | EmptyString => EmptyString
                end in
              Some (num ++ w ++ star ++ plural)
          | None => None
          end
      end
  end.

(** The leftmost match of the rating pattern. *)
Fixpoint firstRating (s : string) : option string :=
  match ratingAt s with
  | Some m => Some m
  | None =>
      match s with
      | String _ s' => firstRating s'
      | EmptyString => None
      end
  end.

(** [/page|next|more|\d+/.test(s)] *)
Definition paginationTest (s : string) : bool :=
  (includes s "page" || includes s "next" || includes s "more"
   || existsb isDigit (list_ascii_of_string s))%bool.

End Pattern.

(** ** [parser.ts]: class [ProprietaryWebParser] *)

Definition dq : string := String (ascii_of_nat 34) EmptyString.

Definition testid (id : string) : string :=
  "[data-testid=" ++ dq ++ id ++ dq ++ "]".

Definition rule (name selector : string) (attribute : option string)
    (multiple required : bool) : ParserRule :=
  {| name := name; selector := selector; attribute := attribute;
     multiple := multiple; required := required; transform := None |}.

(** Predefined rules for common website patterns. *)
Module defaultRules.

Definition ecommerce : list ParserRule :=
  [ rule "title" ("h1, .product-title, " ++ testid "product-title") None false true;
    rule "price" (".price, .product-price, " ++ testid "price") None false true;
    rule "description" (".description, .product-description, " ++ testid "description")
      None false false;
    rule "images" ("img[src*=" ++ dq ++ "product" ++ dq ++ "], .product-image img")
      (Some "src") true false;
    rule "rating" (".rating, .stars, " ++ testid "rating") None false false;
    rule "reviews" ".review, .customer-review" None true false ].

Definition realestate : list ParserRule :=
  [ rule "address" (".address, .property-address, " ++ testid "address") None false true;
    rule "price" (".price, .property-price, " ++ testid "price") None false true;
    rule "bedrooms" (".beds, .bedrooms, " ++ testid "beds") None false false;
    rule "bathrooms" (".baths, .bathrooms, " ++ testid "baths") None false false;
    rule "sqft" (".sqft, .square-feet, " ++ testid "sqft") None false false;
    rule "images" ".property-image img, .listing-image img" (Some "src") true false ].

Definition travel : list ParserRule :=
  [ rule "destination" ".destination, .hotel-name, .flight-destination" None false true;
    rule "price" (".price, .cost, " ++ testid "price") None false true;
    rule "dates" ".dates, .check-in, .departure-date" None false false;
    rule "rating" (".rating, .stars, " ++ testid "rating") None false false;
    rule "amenities" ".amenities li, .features li" None true false ].

Definition healthcare : list ParserRule :=
  [ rule "drugName" ".drug-name, .medication-name, h1" None false true;
    rule "price" (".price, .cost, " ++ testid "price") None false false;
    rule "dosage" ".dosage, .strength" None false false;
    rule "manufacturer" ".manufacturer, .brand" None false false;
    rule "sideEffects" ".side-effects li, .warnings li" None true false ].

Definition general : list ParserRule :=
  [ rule "title" "h1, title, .main-title" None false false;
    rule "content" ".content, .main-content, article, .post-content" None false false;
    rule "links" "a[href]" (Some "href") true false;
    rule "images" "img[src]" (Some "src") true false ].

End defaultRules.

Definition detectRuleSet (url content : string) : list ParserRule :=
  let urlLower := toLowerCase url in
  let contentLower := toLowerCase content in
  (* E-commerce detection *)
  if (containsKeywords urlLower ["shop"; "store"; "product"; "buy"; "cart"; "amazon"; "ebay"]
      || containsKeywords contentLower ["add to cart"; "buy now"; "price"; "$"; "product"])%bool
  then defaultRules.ecommerce
  (* Real estate detection *)
  else if (containsKeywords urlLower ["realtor"; "zillow"; "realty"; "homes"; "property"]
      || containsKeywords contentLower ["bedrooms"; "bathrooms"; "sqft"; "listing"; "mls"])%bool
  then defaultRules.realestate
  (* Travel detection *)
  else if (containsKeywords urlLower ["booking"; "hotel"; "flight"; "travel"; "expedia"; "airbnb"]
      || containsKeywords contentLower ["check-in"; "check-out"; "nights"; "guests"; "amenities"])%bool
  then defaultRules.travel
  (* Healthcare detection *)
  else if (containsKeywords urlLower ["drug"; "medication"; "pharmacy"; "health"; "medical"]
      || containsKeywords contentLower ["dosage"; "side effects"; "prescription"; "mg"; "tablet"])%bool
  then defaultRules.healthcare
  else defaultRules.general.

(** [lines[0]?.trim() || null] *)
Definition firstTrimmedOrNull (lines : list string) : JSValue :=
  match lines with
  | [] => VNull
  | line :: _ => if nonEmpty (trim line) then VString (trim line) else VNull
  end.

Definition extractTitle (text : string) : JSValue :=
  let lines := filter (fun line => nonEmpty (trim line)) (splitLines text) in
  firstTrimmedOrNull lines.

Definition extractPrices (text : string) (multiple : bool) : JSValue :=
  match Pattern.priceMatches 0 text with
  | [] => VNull
  | first :: rest => if multiple then strings (first :: rest) else VString first
  end.

Definition extractDescription (text : string) : JSValue :=
  let lines :=
    filter (fun line => (50 <? String.length (trim line))%nat) (splitLines text) in
  firstTrimmedOrNull lines.

Definition extractRating (text : string) : JSValue :=
  match Pattern.firstRating text with
  | Some m => VString m
  | None => VNull
  end.

Definition extractGenericField (text fieldName : string) (multiple : bool)
    : JSValue :=
  let lines := splitLines text in
  let relevantLines :=
    filter (fun line => includes (toLowerCase line) (toLowerCase fieldName)) lines in
  match relevantLines with
  | [] => VNull
  | first :: _ => if multiple then strings relevantLines else VString (trim first)
  end.

Definition extractByRule (rule : ParserRule) (text : string)
    (headings : list string) (extract : Extract) : JSValue :=
  let name := name rule in
  let multiple := multiple rule in
  if String.eqb name "title" then
    match headings with
    | first :: _ => if nonEmpty first then VString first else extractTitle text
    | [] => extractTitle text
    end
  else if String.eqb name "price" then extractPrices text multiple
  else if String.eqb name "description" then extractDescription text
  else if String.eqb name "rating" then extractRating text
  else if String.eqb name "images" then strings (orElse (images extract) [])
  else if String.eqb name "links" then strings (orElse (links extract) [])
  else extractGenericField text name multiple.

(** The body of the [try] block of [applyRules] up to the test on the
    value: extraction, then the rule's [transform] on a truthy value. *)
Definition ruleValue (rule : ParserRule) (text : string)
    (headings : list string) (extract : Extract) : Outcome JSValue :=
  let value := extractByRule rule text headings extract in
  match transform rule with
  | Some f => if truthy value then f value else Returned value
  | None => Returned value
  end.

(** One turn of the loop of [applyRules]; a thrown exception is logged and
    the loop goes on. *)
Definition applyRule (text : string) (headings : list string)
    (extract : Extract) (result : Obj) (rule : ParserRule) : Obj :=
  match ruleValue rule text headings extract with
  | Returned value =>
      if notNullish value then Object.set (name rule) value result else result
  | Threw _ => result
  end.

Definition applyRules (extract : Extract) (rules : list ParserRule) : Obj :=
  let text := text extract in
  let headings := orElse (headings extract) [] in
  fold_left (applyRule text headings extract) rules [].

Definition calculateConfidence (data : Obj) (rules : list ParserRule) : number :=
  let requiredRules := filter required rules in
  let foundRequired :=
    filter (fun rule => notNullish (Object.get data (name rule))) requiredRules in
  let totalFields := length (Object.keys data) in
  let requiredScore :=
    if (0 <? length requiredRules)%nat
    then (Num.ofLength (length foundRequired)
          / Num.ofLength (length requiredRules))%float
    else 1%float in
  let totalScore := (Num.ofLength totalFields / Num.ofLength (length rules))%float in
  Num.ofFloat ((requiredScore * 0.7) + (totalScore * 0.3))%float.

Definition nl : string := String newline EmptyString.

Definition extractHtmlContext (text : string) (data : Obj) : string :=
  let contexts :=
    flat_map (fun entry : string * JSValue =>
      let (key, value) := entry in
      match value with
      | VString s =>
          if (0 <? String.length s)%nat then
            match find (fun line => includes line s) (splitLines text) with
            | Some contextLine =>
                if nonEmpty contextLine then [key ++ ": " ++ trim contextLine] else []
            | None => []
            end
          else []
      | _ => []
      end) (Object.entries data) in
  join nl contexts.

(** ** The services the code awaits *)

(** The object the completion service returns for the extraction schema. *)
Record LLMObject : Type := {
  extractedData : option Obj;
  objConfidence : option number;
  objExplanation : option string
}.

(** The n-th call of a run to a service receives its n-th answer. *)
Record World : Type := {
  scrapeAnswer : nat -> Outcome ScrapeResponse;
  objectAnswer : nat -> Outcome LLMObject;
  textAnswer : nat -> Outcome string;
  clockAnswer : nat -> string
}.

(** How many calls each service has received so far. *)
Record Calls : Type := {
  scrapeCalls : nat;
  objectCalls : nat;
  textCalls : nat;
  clockCalls : nat
}.

Definition noCalls : Calls :=
  {| scrapeCalls := 0; objectCalls := 0; textCalls := 0; clockCalls := 0 |}.

(** A computation that awaits services: it returns or throws, and counts. *)
Definition Run (A : Type) : Type := World -> Calls -> Outcome A * Calls.

Module RunMonad.

Definition ret {A : Type} (a : A) : Run A := fun _ c => (Returned a, c).

Definition throw {A : Type} (e : Thrown) : Run A := fun _ c => (Threw e, c).

Definition bind {A B : Type} (m : Run A) (k : A -> Run B) : Run B :=
  fun w c =>
    match m w c with
    | (Returned a, c') => k a w c'
    | (Threw e, c') => (Threw e, c')
    end.

(** [try { m } catch (error) { handler error }] *)
Definition tryCatch {A : Type} (m : Run A) (handler : Thrown -> Run A) : Run A :=
  fun w c =>
    match m w c with
    | (Returned a, c') => (Returned a, c')
    | (Threw e, c') => handler e w c'
    end.

(** [blink.data.scrape(url)] *)
Definition scrape (url : string) : Run ScrapeResponse :=
  fun w c =>
    (scrapeAnswer w (scrapeCalls c),
     {| scrapeCalls := S (scrapeCalls c); objectCalls := objectCalls c;
        textCalls := textCalls c; clockCalls := clockCalls c |}).

(** [blink.ai.generateObject({ prompt, schema })] *)
Definition generateObject : Run LLMObject :=
  fun w c =>
    (objectAnswer w (objectCalls c),
     {| scrapeCalls := scrapeCalls c; objectCalls := S (objectCalls c);
        textCalls := textCalls c; clockCalls := clockCalls c |}).

(** [blink.ai.generateText({ prompt, maxTokens })] *)
Definition generateText : Run string :=
  fun w c =>
    (textAnswer w (textCalls c),
     {| scrapeCalls := scrapeCalls c; objectCalls := objectCalls c;
        textCalls := S (textCalls c); clockCalls := clockCalls c |}).

(** [new Date().toISOString()] *)
Definition isoNow : Run string :=
  fun w c =>
    (Returned (clockAnswer w (clockCalls c)),
     {| scrapeCalls := scrapeCalls c; objectCalls := objectCalls c;
        textCalls := textCalls c; clockCalls := S (clockCalls c) |}).

End RunMonad.
Import RunMonad.

Notation "x <- m ;; k" := (bind m (fun x => k))
  (at level 61, m at next level, right associativity).

(** [error instanceof Error ? error.message : fallback] *)
Definition messageOr (error : Thrown) (fallback : string) : string :=
  match error with
  | ErrorObject message => message
  | OtherValue => fallback
  end.

Definition scrapeWithBlink (url : string) : Run ScrapeResponse := scrape url.

Definition extractFromUrl (url : string) (customRules : option (list ParserRule))
    : Run ParsedContent :=
  tryCatch
    (response <- scrapeWithBlink url ;;
     let metadata := pageMetadata response in
     let extract := extract response in
     (* Determine the best rule set to use *)
     let rules := orElse customRules (detectRuleSet url (text extract)) in
     (* Parse the content using rules *)
     let parsedData := applyRules extract rules in
     (* Calculate confidence based on required fields found *)
     let confidence := calculateConfidence parsedData rules in
     extractedAt <- isoNow ;;
     ret {| success := Num.gtb confidence (Finite (3 # 10));
            data := Object.set "metadata"
                      (VObject [("title", optString (metaTitle metadata));
                                ("description", optString (metaDescription metadata));
                                ("url", VString url);
                                ("extractedAt", VString extractedAt)])
                      (Object.spread parsedData);
            confidence := confidence;
            htmlContext := extractHtmlContext (text extract) parsedData;
            errors := None |})
    (fun error =>
     ret {| success := false;
            data := [];
            confidence := Finite 0;
            htmlContext := EmptyString;
            errors := Some [messageOr error "Unknown parsing error"] |}).

(** [xs.slice(start, end)] *)
Definition slice {A : Type} (start stop : Z) (xs : list A) : list A :=
  let len := Z.of_nat (length xs) in
  let clamp := fun i : Z => if (i <? 0)%Z then Z.max (len + i) 0 else Z.min i len in
  let k := clamp start in
  let final := clamp stop in
  firstn (Z.to_nat (Z.max (final - k) 0)) (skipn (Z.to_nat k) xs).

(** [n || d] for an optional integer: zero counts as missing. *)
Definition orElseZ (n : option Z) (d : Z) : Z :=
  match n with
  | Some 0%Z | None => d
  | Some k => k
  end.

Definition handlePagination (url : string) (maxPages : Z) : Run (list string) :=
  let urls := [url] in
  tryCatch
    (response <- scrapeWithBlink url ;;
     let links := pageLinks response in
     (* Look for pagination links *)
     let paginationLinks :=
       slice 0 (maxPages - 1)
         (filter (fun link => Pattern.paginationTest (toLowerCase link)) links) in
     ret (urls ++ paginationLinks)%list)
    (fun error => ret urls).

(** ** [llm-extractor.ts]: class [LLMExtractor] *)

Module LLMExtractor.

Record LLMExtractionResult : Type := {
  success : bool;
  data : Obj;
  confidence : number;
  explanation : string;
  errors : option (list string)
}.

(** [n || 0] *)
Definition numberOrZero (n : option number) : number :=
  match n with
  | Some x => if truthy (VNumber x) then x else Finite 0
  | None => Finite 0
  end.

(** [s || fallback] *)
Definition stringOr (s : option string) (fallback : string) : string :=
  match s with
  | Some x => if nonEmpty x then x else fallback
  | None => fallback
  end.

Definition extractFromContent (content instructions url : string)
    : Run LLMExtractionResult :=
  tryCatch
    (object <- generateObject ;;
     ret {| success := true;
            data := orElse (extractedData object) [];
            confidence := numberOrZero (objConfidence object);
            explanation :=
              stringOr (objExplanation object) "Data extracted using LLM analysis";
            errors := None |})
    (fun error =>
     ret {| success := false;
            data := [];
            confidence := Finite 0;
            explanation := "LLM extraction failed";
            errors := Some [messageOr error "Unknown LLM error"] |}).

Definition analyzeAndCleanContent (content url : string) : Run string :=
  tryCatch generateText (fun error => ret content).

Definition extractWithFallback (content primaryInstructions url : string)
    : Run LLMExtractionResult :=
  (* Try primary extraction *)
  result <- extractFromContent content primaryInstructions url ;;
  (* If confidence is low, try with cleaned content *)
  if Num.ltb (confidence result) (Finite (1 # 2)) then
    cleanedContent <- analyzeAndCleanContent content url ;;
    fallbackResult <- extractFromContent cleanedContent primaryInstructions url ;;
    (* Use the better result *)
    if Num.gtb (confidence fallbackResult) (confidence result) then
      ret {| success := success fallbackResult;
             data := data fallbackResult;
             confidence := confidence fallbackResult;
             explanation :=
               explanation fallbackResult
               ++ " (Used cleaned content for better extraction)";
             errors := errors fallbackResult |}
    else ret result
  else ret result.

Definition generateExtractionSummary (results : Obj) (instructions url : string)
    : Run string :=
  tryCatch generateText
    (fun error =>
     ret ("Extracted " ++ JSString.ofNat (length (Object.keys results))
          ++ " fields from " ++ url)).

End LLMExtractor.

(** ** [hybrid-engine.ts]: class [HybridScrapingEngine] *)

Record ScrapingJob : Type := {
  id : string;
  userId : string;
  jobName : string;
  targetUrls : list string;
  extractionInstructions : option string
}.

(** A field of the settings object handed to the constructor: left out, or
    written, possibly with the value [undefined]. *)
Inductive Field (A : Type) : Type :=
| Absent
| Present (value : option A).
Arguments Absent {A}.
Arguments Present {A} value.

(** The settings object as the caller writes it. *)
Record SettingsArgument : Type := {
  argMaxPages : Field Z;
  argDelay : Field Z;
  argTimeout : Field Z;
  argFollowPagination : Field bool;
  argEnableJavaScript : Field bool
}.

(** [{ field: default, ...settings }]: a field that is written replaces
    the default, whatever its value; a field left out keeps it. *)
Definition spreadOver {A : Type} (default : A) (given : Field A) : option A :=
  match given with
  | Absent => Some default
  | Present value => value
  end.

(** The constructor: the defaults, with the settings given spread over
    them. *)
Definition constructorSettings (settings : SettingsArgument) : ScrapingSettings :=
  {| maxPages := spreadOver 10%Z (argMaxPages settings);
     delay := spreadOver 1000%Z (argDelay settings);
     timeout := spreadOver 30000%Z (argTimeout settings);
     followPagination := spreadOver false (argFollowPagination settings);
     enableJavaScript := spreadOver true (argEnableJavaScript settings) |}.

(** [new HybridScrapingEngine()]: the parameter defaults to [{}]. *)
Definition noSettings : SettingsArgument :=
  {| argMaxPages := Absent; argDelay := Absent; argTimeout := Absent;
     argFollowPagination := Absent; argEnableJavaScript := Absent |}.

(** [!instructions]: no string, or the empty string. *)
Definition noInstructions (instructions : option string) : bool :=
  match instructions with
  | None => true
  | Some s => negb (nonEmpty s)
  end.

Definition requestedFields : list string :=
  ["price"; "title"; "description"; "rating"; "reviews"; "address"; "contact"].

Definition shouldUseLLM (parserResult : ParsedContent)
    (instructions : option string) : bool :=
  if noInstructions instructions then false
  else if Num.ltb (confidence parserResult) (Finite (1 # 2)) then true
  else if negb (success parserResult) then true
  else
    (* Check if instructions ask for specific fields not found by parser *)
    let instructionKeywords := toLowerCase (orElse instructions EmptyString) in
    let extractedFields :=
      toLowerCase (join " " (Object.keys (data parserResult))) in
    let missingFields :=
      filter (fun field =>
                (includes instructionKeywords field
                 && negb (includes extractedFields field))%bool)
             requestedFields in
    (0 <? length missingFields)%nat.

(** One turn of the [forEach] of [mergeResults]. *)
Definition mergeEntry (merged : Obj) (entry : string * JSValue) : Obj :=
  let (key, value) := entry in
  if (negb (truthy (Object.get merged key))
      || shortString (Object.get merged key))%bool
  then Object.set key value merged
  else merged.

(** The merged fields, before the provenance is added. *)
Definition mergeFields (parserData llmData : Obj) : Obj :=
  fold_left mergeEntry (Object.entries llmData) (Object.spread parserData).

Definition extractionSources (parserData llmData merged : Obj) : JSValue :=
  VObject [("parser", strings (Object.keys parserData));
           ("llm", strings (Object.keys llmData));
           ("hybrid", strings (Object.keys merged))].

Definition mergeResults (parserData llmData : Obj) : Obj :=
  let merged := mergeFields parserData llmData in
  (* Add provenance information *)
  Object.set "_extraction_sources"
    (extractionSources parserData llmData merged) merged.

Definition hybridExtraction (url : string) (parserResult : ParsedContent)
    (instructions : string) : Run ScrapedData :=
  tryCatch
    ((* Get the raw content for LLM processing *)
     response <- scrape url ;;
     (* Use LLM to enhance parser results *)
     llmResult <- LLMExtractor.extractWithFallback
                    (markdown response ++ nl ++ nl ++ text (extract response))
                    instructions url ;;
     (* Merge parser and LLM results intelligently *)
     let mergedData := mergeResults (data parserResult) (LLMExtractor.data llmResult) in
     (* Generate explanation for the hybrid approach *)
     explanation <- LLMExtractor.generateExtractionSummary mergedData instructions url ;;
     ret {| url := url;
            content := mergedData;
            metadata :=
              {| extractionSource := hybrid;
                 metaHtmlContext := Some (htmlContext parserResult);
                 explanation := Some ("Hybrid extraction: " ++ explanation) |} |})
    (fun error =>
     (* Fallback to parser result if hybrid fails *)
     ret {| url := url;
            content := data parserResult;
            metadata :=
              {| extractionSource := parser;
                 metaHtmlContext := Some (htmlContext parserResult);
                 explanation :=
                   Some "Hybrid extraction failed, using parser results" |} |}).

Definition llmOnlyExtraction (url instructions : string) : Run ScrapedData :=
  tryCatch
    (response <- scrape url ;;
     let content := markdown response ++ nl ++ nl ++ text (extract response) in
     llmResult <- LLMExtractor.extractWithFallback content instructions url ;;
     ret {| url := url;
            content := LLMExtractor.data llmResult;
            metadata :=
              {| extractionSource := llm;
                 metaHtmlContext := None;
                 explanation := Some (LLMExtractor.explanation llmResult) |} |})
    (fun error =>
     throw (ErrorObject ("LLM extraction failed: " ++ messageOr error "Unknown error"))).

Definition processUrl (url : string) (job : ScrapingJob) : Run ScrapedData :=
  tryCatch
    ((* Step 1: Try proprietary parser first *)
     parserResult <- extractFromUrl url None ;;
     (* Step 2: Determine if LLM assistance is needed *)
     let needsLLM := shouldUseLLM parserResult (extractionInstructions job) in
     if (needsLLM && negb (noInstructions (extractionInstructions job)))%bool then
       (* Step 3: Use hybrid approach *)
       hybridExtraction url parserResult
         (orElse (extractionInstructions job) EmptyString)
     else if (success parserResult
              && Num.gtb (confidence parserResult) (Finite (6 # 10)))%bool then
       (* Step 4: Parser result is good enough *)
       ret {| url := url;
              content := data parserResult;
              metadata :=
                {| extractionSource := parser;
                   metaHtmlContext := Some (htmlContext parserResult);
                   explanation := None |} |}
     else
       (* Step 5: Fallback to LLM-only extraction *)
       llmOnlyExtraction url
         (if noInstructions (extractionInstructions job)
          then "Extract all relevant data"
          else orElse (extractionInstructions job) EmptyString))
    (fun error =>
     ret {| url := url;
            content := [];
            metadata :=
              {| extractionSource := failed;
                 metaHtmlContext := None;
                 explanation := Some (messageOr error "Unknown error") |} |}).

(** [[...new Set(xs)]]: each value once, in order of first occurrence. *)
Definition uniqueStep (seen : list string) (x : string) : list string :=
  if existsb (String.eqb x) seen then seen else (seen ++ [x])%list.

Definition unique (xs : list string) : list string :=
  fold_left uniqueStep xs [].

(** [b] for an optional flag read as a condition. *)
Definition flagSet (b : option bool) : bool := orElse b false.

(** One turn of the loop of [expandUrls]. *)
Definition expandUrl (settings : ScrapingSettings) (allUrls : list string)
    (url : string) : Run (list string) :=
  let allUrls := (allUrls ++ [url])%list in
  (* Handle pagination if enabled *)
  if flagSet (followPagination settings) then
    tryCatch
      (paginationUrls <- handlePagination url (orElseZ (maxPages settings) 10) ;;
       (* Skip the original URL *)
       ret (allUrls ++ skipn 1 paginationUrls)%list)
      (fun error => ret allUrls)
  else ret allUrls.

Fixpoint expandLoop (settings : ScrapingSettings) (targetUrls allUrls : list string)
    : Run (list string) :=
  match targetUrls with
  | [] => ret allUrls
  | url :: rest =>
      allUrls' <- expandUrl settings allUrls url ;;
      expandLoop settings rest allUrls'
  end.

Definition expandUrls (settings : ScrapingSettings) (targetUrls : list string)
    : Run (list string) :=
  allUrls <- expandLoop settings targetUrls [] ;;
  (* Remove duplicates and limit total pages *)
  let uniqueUrls := unique allUrls in
  ret (slice 0 (orElseZ (maxPages settings) 50) uniqueUrls).

(** ** The classifier as a table

    The five categories, their keyword lists and the order in which they are
    tried, as a table to compare [detectRuleSet] with. *)

Inductive Category : Type :=
| Ecommerce | Realestate | Travel | Healthcare | General.

Definition rulesOf (c : Category) : list ParserRule :=
  match c with
  | Ecommerce => defaultRules.ecommerce
  | Realestate => defaultRules.realestate
  | Travel => defaultRules.travel
  | Healthcare => defaultRules.healthcare
  | General => defaultRules.general
  end.

Definition urlKeywords (c : Category) : list string :=
  match c with
  | Ecommerce => ["shop"; "store"; "product"; "buy"; "cart"; "amazon"; "ebay"]
  | Realestate => ["realtor"; "zillow"; "realty"; "homes"; "property"]
  | Travel => ["booking"; "hotel"; "flight"; "travel"; "expedia"; "airbnb"]
  | Healthcare => ["drug"; "medication"; "pharmacy"; "health"; "medical"]
  | General => []
  end.

Definition contentKeywords (c : Category) : list string :=
  match c with
  | Ecommerce => ["add to cart"; "buy now"; "price"; "$"; "product"]
  | Realestate => ["bedrooms"; "bathrooms"; "sqft"; "listing"; "mls"]
  | Travel => ["check-in"; "check-out"; "nights"; "guests"; "amenities"]
  | Healthcare => ["dosage"; "side effects"; "prescription"; "mg"; "tablet"]
  | General => []
  end.

(** [s] occurs in [t] as a substring. *)
Definition occursIn (s t : string) : Prop :=
  exists before after, t = before ++ s ++ after.

(** The category has a keyword in the lower-cased URL or in the lower-cased
    content. *)
Definition matches (c : Category) (url content : string) : Prop :=
  (exists k, In k (urlKeywords c) /\ occursIn k (toLowerCase url))
  \/ (exists k, In k (contentKeywords c) /\ occursIn k (toLowerCase content)).

Definition matchesb (c : Category) (url content : string) : bool :=
  (containsKeywords (toLowerCase url) (urlKeywords c)
   || containsKeywords (toLowerCase content) (contentKeywords c))%bool.

Definition priorityOrder : list Category :=
  [Ecommerce; Realestate; Travel; Healthcare].

(** The first category of the priority order that matches, else [General]. *)
Definition classify (url content : string) : Category :=
  match find (fun c => matchesb c url content) priorityOrder with
  | Some c => c
  | None => General
  end.

(** ** The merge rule, case by case *)

(** The values that convert to [false]: [undefined], [null], [false], zero,
    [NaN] and the empty string. *)
Definition falsy (v : JSValue) : bool :=
  match v with
  | VUndefined | VNull | VBool false | VNumber NotANumber => true
  | VNumber (Finite q) => Qeq_bool q 0
  | VString EmptyString => true
  | _ => false
  end.

(** What a read of the base must find for a value of the LLM map to be
    written: nothing, a falsy value, or a string of fewer than ten
    characters. *)
Definition replaceable (base : option JSValue) : bool :=
  match base with
  | None => true
  | Some (VString s) => (String.length s <? 10)%nat
  | Some v => falsy v
  end.

(** The list of names stored under [_extraction_sources.which]. *)
Definition sourcesOf (result : Obj) (which : string) : list string :=
  match Object.get result "_extraction_sources" with
  | VObject props =>
      match Object.get props which with
      | VArray items =>
          flat_map (fun v => match v with VString s => [s] | _ => [] end) items
      | _ => []
      end
  | _ => []
  end.


(** The race result of the examples: what the rule-based pass found, and
    what the model answered. *)
Definition raceParserData : Obj := [("title", VString "Monaco Grand Prix 2024")].

Definition raceLLMData : Obj :=
  [("driver", VString "Charles Leclerc"); ("constructor", VString "Ferrari")].

(** ** The confidence score from its four counts *)

(** The confidence for [found] of [required] required fields and [keys]
    keys over [total] rules. *)
Definition confidenceOf (found required keys total : nat) : number :=
  let requiredScore :=
    if (0 <? required)%nat
    then (Num.ofLength found / Num.ofLength required)%float
    else 1%float in
  let totalScore := (Num.ofLength keys / Num.ofLength total)%float in
  Num.ofFloat ((requiredScore * 0.7) + (totalScore * 0.3))%float.

Definition inUnitIntervalb (x : number) : bool :=
  match x with
  | Finite q => (Qle_bool 0 q && Qle_bool q 1)%bool
  | _ => false
  end.

(** The numbers from 0 to [n]. *)
Definition upTo (n : nat) : list nat := seq 0 (S n).

(** Every confidence for at most [maxTotal] rules, with no more keys than
    rules and no more fields found than required, lies in the unit
    interval. *)
Definition confidenceTable (maxTotal : nat) : bool :=
  forallb (fun total =>
    forallb (fun required =>
      forallb (fun found =>
        forallb (fun keys =>
          inUnitIntervalb (confidenceOf found required keys total))
          (upTo total))
        (upTo required))
      (upTo total))
    (seq 1 maxTotal).

(** ** What a rule contributes *)

(** The value a rule adds to the field map, if it adds one. *)
Definition yields (extract : Extract) (rule : ParserRule) : option JSValue :=
  match ruleValue rule (text extract) (orElse (headings extract) []) extract with
  | Returned value => if notNullish value then Some value else None
  | Threw _ => None
  end.

(** The rule throws, or extracts nothing. *)
Definition failsOrEmpty (extract : Extract) (rule : ParserRule) : Prop :=
  let outcome :=
    ruleValue rule (text extract) (orElse (headings extract) []) extract in
  (exists e, outcome = Threw e)
  \/ outcome = Returned VNull
  \/ outcome = Returned VUndefined.

(** A line with nothing but white space. *)
Definition blankLine (line : string) : Prop := trim line = EmptyString.

(** The string and its suffixes, from the longest on: one for each
    position. *)
Fixpoint suffixes (s : string) : list string :=
  s :: match s with
       | EmptyString => []
       | String _ s' => suffixes s'
       end.

(** The match of the price pattern at each position where it has one, in
    text order. *)
Definition priceOccurrences (text : string) : list string :=
  flat_map (fun suffix =>
              match Pattern.priceAt suffix with
              | Some m => [m]
              | None => []
              end)
           (suffixes text).

(** ** URL expansion, target by target *)

(** The links of a fetched page that [handlePagination] keeps. *)
Definition paginationLinksOf (settings : ScrapingSettings)
    (response : ScrapeResponse) : list string :=
  slice 0 (orElseZ (maxPages settings) 10 - 1)
    (filter (fun link => Pattern.paginationTest (toLowerCase link))
       (pageLinks response)).

(** What one target URL adds to the list: itself and, when pagination is
    followed and its page could be fetched, the pagination links. *)
Definition contribution (settings : ScrapingSettings) (url : string)
    (answer : Outcome ScrapeResponse) : list string :=
  url :: (if flagSet (followPagination settings) then
            match answer with
            | Returned response => paginationLinksOf settings response
            | Threw _ => []
            end
          else []).

(** The contributions of the targets in order; the [n]-th fetch answers the
    next target when pagination is followed. *)
Fixpoint contributions (settings : ScrapingSettings)
    (answers : nat -> Outcome ScrapeResponse) (n : nat) (targets : list string)
    : list string :=
  match targets with
  | [] => []
  | url :: rest =>
      (contribution settings url (answers n)
       ++ contributions settings answers
            (if flagSet (followPagination settings) then S n else n) rest)%list
  end.

(** Each value once, at its first occurrence. *)
Fixpoint firstOccurrences (xs : list string) : list string :=
  match xs with
  | [] => []
  | x :: rest => x :: remove string_dec x (firstOccurrences rest)
  end.

(** The value has not been seen yet. *)
Definition notIn (seen : list string) (x : string) : bool :=
  negb (existsb (String.eqb x) seen).

(** The counters after one more fetch. *)
Definition fetched (c : Calls) : Calls :=
  {| scrapeCalls := S (scrapeCalls c); objectCalls := objectCalls c;
     textCalls := textCalls c; clockCalls := clockCalls c |}.

(** A world in which every service is down. *)
Definition deadWorld : World :=
  {| scrapeAnswer := fun _ => Threw (ErrorObject "fetch failed");
     objectAnswer := fun _ => Threw (ErrorObject "completion failed");
     textAnswer := fun _ => Threw (ErrorObject "completion failed");
     clockAnswer := fun _ => "2024-01-01T00:00:00.000Z" |}.

(** A world in which the first fetch answers with a page and every later
    call fails. *)
Definition oneFetchWorld (response : ScrapeResponse) : World :=
  {| scrapeAnswer := fun n =>
       match n with
       | O => Returned response
       | S _ => Threw (ErrorObject "fetch failed")
       end;
     objectAnswer := fun _ => Threw (ErrorObject "completion failed");
     textAnswer := fun _ => Threw (ErrorObject "completion failed");
     clockAnswer := fun _ => "2024-01-01T00:00:00.000Z" |}.

(** ** Outcomes of a per-URL run *)

(** The computation returns in every world. *)
Definition neverThrows {A : Type} (m : Run A) : Prop :=
  forall w c, exists a c', m w c = (Returned a, c').

(** The result of the hybrid path when it falls back to the parser. *)
Definition parserFallback (url : string) (parserResult : ParsedContent)
    : ScrapedData :=
  {| url := url;
     content := data parserResult;
     metadata :=
       {| extractionSource := parser;
          metaHtmlContext := Some (htmlContext parserResult);
          explanation := Some "Hybrid extraction failed, using parser results" |} |}.

(** The result of a URL whose processing threw [error]. *)
Definition failedResult (url : string) (error : Thrown) : ScrapedData :=
  {| url := url;
     content := [];
     metadata :=
       {| extractionSource := failed;
          metaHtmlContext := None;
          explanation := Some (messageOr error "Unknown error") |} |}.

(** What the LLM-only path throws when its fetch threw [error]. *)
Definition llmOnlyError (error : Thrown) : Thrown :=
  ErrorObject ("LLM extraction failed: " ++ messageOr error "Unknown error").

(** The branch [processUrl] takes after the rule-based pass. *)
Inductive Branch : Type := HybridBranch | ParserBranch | LLMOnlyBranch.

Definition branchOf (parserResult : ParsedContent) (job : ScrapingJob) : Branch :=
  if (shouldUseLLM parserResult (extractionInstructions job)
      && negb (noInstructions (extractionInstructions job)))%bool
  then HybridBranch
  else if (success parserResult
           && Num.gtb (confidence parserResult) (Finite (6 # 10)))%bool
  then ParserBranch
  else LLMOnlyBranch.

(** ** The extraction prompt ([llm-extractor.ts], [buildExtractionPrompt]) *)

(** The number of characters of the content that go into the prompt. *)
Definition contentBudget : nat := N.to_nat 6000.

Definition truncationMarker : string := nl ++ "...(content truncated)".

(** [content.substring(0, 6000)] followed by the marker when the content is
    longer. *)
Definition contentExcerpt (content : string) : string :=
  String.substring 0 contentBudget content
  ++ (if (contentBudget <? String.length content)%nat then truncationMarker
      else EmptyString).

Definition promptToUrl : string :=
  join nl
    [ EmptyString;
      "    You are an expert web data extractor. Extract structured data from the following web page content.";
      EmptyString;
      "    URL: " ].

Definition promptToInstructions : string :=
  join nl
    [ EmptyString;
      "    ";
      "    Extraction Instructions: " ].

Definition promptToContent : string :=
  join nl
    [ EmptyString;
      "    ";
      "    Web Page Content:";
      "    " ].

Definition promptGuidelines : string :=
  join nl
    [ EmptyString;
      EmptyString;
      "    Extract the requested data and return it as a structured object. Follow these guidelines:";
      EmptyString;
      "    1. Extract only factual information present in the content";
      "    2. Use consistent field names (camelCase)";
      "    3. Convert prices to numbers when possible";
      "    4. Extract dates in ISO format when possible";
      "    5. For lists/arrays, extract all relevant items";
      "    6. Ignore navigation, ads, and boilerplate content";
      "    7. If a field is not found, omit it rather than guessing";
      EmptyString;
      "    Provide a confidence score based on:";
      "    - How clearly the data was present in the content";
      "    - How well it matches the extraction instructions";
      "    - The completeness of the extracted data";
      EmptyString;
      "    Include a brief explanation of what was extracted and any challenges encountered.";
      "    " ].

Definition buildExtractionPrompt (content instructions url : string) : string :=
  promptToUrl ++ url
  ++ promptToInstructions ++ instructions
  ++ promptToContent ++ contentExcerpt content
  ++ promptGuidelines.

(** ** The batches of [processJob] *)

Definition batchSize : nat := 3.

(** The turns of the batch loop from index [i] on: the batch each turn
    takes, and whether the turn ends with the delay between batches.  The
    index grows at every turn, so as many turns as there are URLs are
    enough. *)
Fixpoint batchLoop (turns i : nat) (allUrls : list string)
    : list (list string * bool) :=
  match turns with
  | O => []
  | S turns' =>
      if (i <? length allUrls)%nat then
        (slice (Z.of_nat i) (Z.of_nat (i + batchSize)) allUrls,
         (i + batchSize <? length allUrls)%nat)
        :: batchLoop turns' (i + batchSize) allUrls
      else []
  end.

Definition processJobBatches (allUrls : list string) : list (list string * bool) :=
  batchLoop (length allUrls) 0 allUrls.

(** ** Counting the calls of a run *)

(** Between [c] and [c'] at most [s] fetches, [o] object completions and
    [t] text completions were made. *)
Definition callsWithin (s o t : nat) (c c' : Calls) : Prop :=
  (scrapeCalls c <= scrapeCalls c' <= scrapeCalls c + s)
  /\ (objectCalls c <= objectCalls c' <= objectCalls c + o)
  /\ (textCalls c <= textCalls c' <= textCalls c + t).

Definition atMost (s o t : nat) {A : Type} (m : Run A) : Prop :=
  forall w c, callsWithin s o t c (snd (m w c)).

(** The completion service fails every object request. *)
Definition objectServiceDown (w : World) : Prop :=
  forall n, exists e, objectAnswer w n = Threw e.

(** A string that the price pattern can match: a dollar sign, then a digit
    or a comma. *)
Definition priceShaped (m : string) : Prop :=
  exists c rest,
    m = String "$" (String c rest) /\ Pattern.isPriceChar c = true.

(** The line mentions the field, whatever the case of the letters. *)
Definition mentions (fieldName line : string) : Prop :=
  occursIn (toLowerCase fieldName) (toLowerCase line).

(** [kept] holds the lines that mention the field, all of them and no
    other, in the order of [lines]. *)
Inductive mentioning (fieldName : string) : list string -> list string -> Prop :=
| mentioning_nil : mentioning fieldName [] []
| mentioning_keep (line : string) (lines kept : list string) :
    mentions fieldName line ->
    mentioning fieldName lines kept ->
    mentioning fieldName (line :: lines) (line :: kept)
| mentioning_skip (line : string) (lines kept : list string) :
    ~ mentions fieldName line ->
    mentioning fieldName lines kept ->
    mentioning fieldName (line :: lines) kept.

(** The page limit of URL expansion for the settings a caller writes: 10
    when [maxPages] is left out, 50 when it is written as [undefined] or as
    zero, and the number written otherwise. *)
Definition pageLimit (given : SettingsArgument) : Z :=
  match argMaxPages given with
  | Absent => 10%Z
  | Present None => 50%Z
  | Present (Some 0%Z) => 50%Z
  | Present (Some n) => n
  end.



(** A world in which the fetch answers with the same page every time and
    the completion service is down. *)
Definition fetchOnlyWorld (response : ScrapeResponse) : World :=
  {| scrapeAnswer := fun _ => Returned response;
     objectAnswer := fun _ => Threw (ErrorObject "completion failed");
     textAnswer := fun _ => Threw (ErrorObject "completion failed");
     clockAnswer := fun _ => "2024-01-01T00:00:00.000Z" |}.

(** A product page. *)
Definition productPage : ScrapeResponse :=
  {| markdown := "# Widget Pro";
     pageMetadata := {| metaTitle := Some "Widget Pro"; metaDescription := None |};
     extract := {| text := "Widget Pro" ++ nl ++ "$49.99";
                   headings := Some ["Widget Pro"];
                   links := None; images := None |};
     pageLinks := ["https://shop.example/list?page=2"; "https://shop.example/about"] |}.

(** None of the first [skip] characters of [s] is a dollar sign. *)
Fixpoint noDollarAhead (skip : nat) (s : string) : Prop :=
  match skip, s with
  | S k, String c s' => c <> "$"%char /\ noDollarAhead k s'
  | _, _ => True
  end.

(** * Properties *)

(** ** Strings *)

Lemma prefix_append (p s : string) :
  String.prefix p s = true <-> exists rest, s = p ++ rest.
Proof.
  revert s; induction p as [|a p IH]; intros s; simpl.
  - split; [intros _; now exists s | now destruct s].
  - destruct s as [|b s]; simpl.
    + split; [discriminate | intros [rest H]; discriminate].
    + destruct (ascii_dec a b) as [->|ne].
      * rewrite IH. split; intros [rest H]; exists rest; congruence.
      * split; [discriminate | intros [rest H]; congruence].
Qed.

Lemma includes_occursIn (s sub : string) :
  includes s sub = true <-> occursIn sub s.
Proof.
  unfold occursIn. induction s as [|c s IH].
  - cbn [includes]. rewrite orb_false_r, prefix_append. split.
    + intros [rest H]. now exists "", rest.
    + intros [[|b before] [after H]]; [now exists after | discriminate].
  - cbn [includes]. rewrite orb_true_iff, prefix_append, IH. split.
    + intros [[rest H] | [before [after H]]].
      * now exists "", rest.
      * exists (String c before), after. simpl. now rewrite H.
    + intros [[|b before] [after H]].
      * left. now exists after.
      * right. exists before, after. simpl in H. congruence.
Qed.

Lemma containsKeywords_occurs (text : string) (keywords : list string) :
  containsKeywords text keywords = true
  <-> exists k, In k keywords /\ occursIn k text.
Proof.
  unfold containsKeywords. rewrite existsb_exists.
  split; intros [k [Hin H]]; exists k; split; auto;
    now apply includes_occursIn.
Qed.

Lemma matchesb_matches (c : Category) (url content : string) :
  matchesb c url content = true <-> matches c url content.
Proof.
  unfold matchesb, matches.
  now rewrite orb_true_iff, !containsKeywords_occurs.
Qed.

(** The no-break space is white space like the space; the capital letters
    of Latin-1 have lower-case forms, the multiplication sign and the sharp
    s have none. *)
Example trim_no_break_space :
  trim (String (ascii_of_nat 160) (String (ascii_of_nat 9) "Widget Pro ")
        ++ String (ascii_of_nat 160) EmptyString)
  = "Widget Pro"
  /\ blankLine (String (ascii_of_nat 160) " ").
Proof. split; reflexivity. Qed.

Example toLowerCase_latin1 :
  map (fun n => nat_of_ascii (lowerChar (ascii_of_nat n)))
    [65; 90; 91; 192; 214; 215; 216; 222; 223; 255]
  = [97; 122; 91; 224; 246; 215; 248; 254; 223; 255].
Proof. reflexivity. Qed.

(** ** The category classifier *)

Lemma detectRuleSet_classify (url content : string) :
  detectRuleSet url content = rulesOf (classify url content).
Proof.
  unfold detectRuleSet, classify, priorityOrder, find.
  change (containsKeywords (toLowerCase url) ?u
          || containsKeywords (toLowerCase content) ?k)%bool
    with (matchesb Ecommerce url content) at 1.
  destruct (matchesb Ecommerce url content); [reflexivity|].
  change (containsKeywords (toLowerCase url) ?u
          || containsKeywords (toLowerCase content) ?k)%bool
    with (matchesb Realestate url content) at 1.
  destruct (matchesb Realestate url content); [reflexivity|].
  change (containsKeywords (toLowerCase url) ?u
          || containsKeywords (toLowerCase content) ?k)%bool
    with (matchesb Travel url content) at 1.
  destruct (matchesb Travel url content); [reflexivity|].
  change (containsKeywords (toLowerCase url) ?u
          || containsKeywords (toLowerCase content) ?k)%bool
    with (matchesb Healthcare url content) at 1.
  destruct (matchesb Healthcare url content); reflexivity.
Qed.

Lemma find_first {A : Type} (f : A -> bool) (earlier later : list A) (x : A) :
  f x = true ->
  (forall y, In y earlier -> f y = false) ->
  find f (earlier ++ x :: later) = Some x.
Proof.
  intros Hx. induction earlier as [|y earlier IH]; intros Hno; simpl.
  - now rewrite Hx.
  - rewrite (Hno y (or_introl eq_refl)). apply IH.
    intros z Hz. apply Hno. now right.
Qed.

Lemma find_nothing {A : Type} (f : A -> bool) (l : list A) :
  (forall y, In y l -> f y = false) -> find f l = None.
Proof.
  induction l as [|y l IH]; intros Hno; simpl; [reflexivity|].
  rewrite (Hno y (or_introl eq_refl)). apply IH.
  intros z Hz. apply Hno. now right.
Qed.

Lemma matchesb_false (c : Category) (url content : string) :
  ~ matches c url content -> matchesb c url content = false.
Proof.
  intros H. destruct (matchesb c url content) eqn:E; [|reflexivity].
  now apply matchesb_matches in E.
Qed.

Lemma detectRuleSet_priority (url content : string)
    (earlier later : list Category) (c : Category) :
  priorityOrder = (earlier ++ c :: later)%list ->
  matches c url content ->
  (forall c', In c' earlier -> ~ matches c' url content) ->
  detectRuleSet url content = rulesOf c.
Proof.
  intros Horder Hc Hearlier.
  rewrite detectRuleSet_classify. unfold classify. rewrite Horder.
  rewrite (find_first _ earlier later c); [reflexivity | |].
  - now apply matchesb_matches.
  - intros c' Hin. apply matchesb_false. now apply Hearlier.
Qed.

(** C5. The classifier lower-cases the URL and the content and tries the
    categories in the order ecommerce, realestate, travel, healthcare, the
    URL keywords and then the content keywords of each: the first category
    with a keyword in either wins, whatever the later categories match, and
    the general rule set is returned when none matches.  The result is
    always one of the five rule sets. *)
Theorem detectRuleSet_first_match (url content : string) :
  (forall earlier later c,
      priorityOrder = (earlier ++ c :: later)%list ->
      matches c url content ->
      (forall c', In c' earlier -> ~ matches c' url content) ->
      detectRuleSet url content = rulesOf c)
  /\ ((forall c, In c priorityOrder -> ~ matches c url content) ->
      detectRuleSet url content = defaultRules.general)
  /\ (exists c, detectRuleSet url content = rulesOf c).
Proof.
  split; [|split].
  - intros earlier later c. apply detectRuleSet_priority.
  - intros Hnone. rewrite detectRuleSet_classify. unfold classify.
    rewrite find_nothing; [reflexivity|].
    intros c Hin. apply matchesb_false. now apply Hnone.
  - exists (classify url content). apply detectRuleSet_classify.
Qed.

(** One ecommerce keyword in the URL outweighs any number of real-estate
    keywords in the content. *)
Example detectRuleSet_no_scoring :
  detectRuleSet "https://homes.example/shop"
    "bedrooms bathrooms sqft listing mls"
  = defaultRules.ecommerce.
Proof. reflexivity. Qed.

Example detectRuleSet_general :
  detectRuleSet "https://news.example/today" "Nothing to see here"
  = defaultRules.general.
Proof. reflexivity. Qed.

(** C9. Whatever the URL, a page whose lower-cased text contains one of
    [add to cart], [buy now], [price], [$] or [product] gets the ecommerce
    rule set. *)
Theorem content_keyword_forces_ecommerce (url content keyword : string) :
  In keyword ["add to cart"; "buy now"; "price"; "$"; "product"] ->
  occursIn keyword (toLowerCase content) ->
  detectRuleSet url content = defaultRules.ecommerce.
Proof.
  intros Hin Hocc.
  apply (detectRuleSet_priority url content []
           [Realestate; Travel; Healthcare] Ecommerce).
  - reflexivity.
  - right. exists keyword. split; assumption.
  - intros c' [].
Qed.

(** A listing on a real-estate site, with the vocabulary of a listing, is
    classified ecommerce because its text shows a price in dollars. *)
Lemma content_keyword_forces_ecommerce_witness :
  detectRuleSet "https://www.zillow.com/homes/12"
    "Listing 12: 3 bedrooms, 2 bathrooms, 1800 sqft, $500,000"
  = defaultRules.ecommerce.
Proof.
  apply (content_keyword_forces_ecommerce _ _ "$").
  - simpl. tauto.
  - apply includes_occursIn. reflexivity.
Defined.

(** ** Objects *)

Section ObjectLemmas.

Import Object.

Lemma NoDup_snoc {A : Type} (l : list A) (x : A) :
  ~ In x l -> NoDup l -> NoDup (l ++ [x]).
Proof.
  induction l as [|y l IH]; simpl; intros Hout Hnd.
  - constructor; [tauto | constructor].
  - inversion Hnd as [|? ? Hy Hnd']; subst. constructor.
    + rewrite in_app_iff. simpl. intuition congruence.
    + apply IH; tauto.
Qed.

Lemma own_None_keys (o : Obj) (k : string) :
  own o k = None <-> ~ In k (keys o).
Proof.
  induction o as [|[k' v'] o IH]; simpl; [tauto|].
  destruct (String.eqb_spec k k') as [->|ne].
  - split; [discriminate | intros H; exfalso; apply H; now left].
  - rewrite IH. split; intros H; [intros [E|E]; [congruence | tauto] | tauto].
Qed.

Lemma own_Some_keys (o : Obj) (k : string) (v : JSValue) :
  own o k = Some v -> In k (keys o).
Proof.
  intros H. destruct (in_dec string_dec k (keys o)) as [Hin|Hout]; [assumption|].
  apply own_None_keys in Hout. congruence.
Qed.

Lemma own_replace (k : string) (v : JSValue) (o : Obj) (k' : string) :
  own (replace k v o) k'
  = if String.eqb k' k then match own o k with Some _ => Some v | None => None end
    else own o k'.
Proof.
  induction o as [|[k0 v0] o IH]; simpl.
  - now destruct (String.eqb k' k).
  - destruct (String.eqb_spec k k0) as [->|ne]; simpl.
    + now destruct (String.eqb_spec k' k0).
    + destruct (String.eqb_spec k' k0) as [->|ne'].
      * destruct (String.eqb_spec k0 k); [congruence | reflexivity].
      * exact IH.
Qed.

Lemma keys_replace (k : string) (v : JSValue) (o : Obj) :
  keys (replace k v o) = keys o.
Proof.
  induction o as [|[k0 v0] o IH]; simpl; [reflexivity|].
  destruct (String.eqb k k0); simpl; [reflexivity | now rewrite IH].
Qed.

Lemma own_insertIndex (n : N) (k : string) (v : JSValue) (o : Obj) (k' : string) :
  own o k = None ->
  own (insertIndex n k v o) k' = if String.eqb k' k then Some v else own o k'.
Proof.
  induction o as [|[k0 v0] o IH]; simpl; intros Hk.
  - reflexivity.
  - destruct (String.eqb_spec k k0) as [->|ne]; [discriminate|].
    destruct (arrayIndex k0) as [m|]; [destruct (m <? n)%N|]; simpl;
      try reflexivity.
    destruct (String.eqb_spec k' k0) as [->|ne'].
    + destruct (String.eqb_spec k0 k); [congruence | reflexivity].
    + now apply IH.
Qed.

Lemma keys_insertIndex (n : N) (k : string) (v : JSValue) (o : Obj) (k' : string) :
  In k' (keys (insertIndex n k v o)) <-> k' = k \/ In k' (keys o).
Proof.
  induction o as [|[k0 v0] o IH]; simpl.
  - intuition congruence.
  - destruct (arrayIndex k0) as [m|]; [destruct (m <? n)%N|]; simpl;
      try rewrite IH; intuition congruence.
Qed.

Lemma NoDup_insertIndex (n : N) (k : string) (v : JSValue) (o : Obj) :
  ~ In k (keys o) -> NoDup (keys o) -> NoDup (keys (insertIndex n k v o)).
Proof.
  induction o as [|[k0 v0] o IH]; simpl; intros Hout Hnd.
  - constructor; [tauto | constructor].
  - assert (Hcons : NoDup (k :: k0 :: keys o)).
    { constructor; [simpl; tauto | assumption]. }
    destruct (arrayIndex k0) as [m|]; [destruct (m <? n)%N|]; simpl;
      try exact Hcons.
    inversion Hnd as [|? ? Hk0 Hnd']; subst. constructor.
    + rewrite keys_insertIndex. intros [E|E]; [apply Hout; now left | tauto].
    + apply IH; tauto.
Qed.

Lemma own_append (o : Obj) (k : string) (v : JSValue) (k' : string) :
  own (o ++ [(k, v)])%list k'
  = match own o k' with
    | Some x => Some x
    | None => if String.eqb k' k then Some v else None
    end.
Proof.
  induction o as [|[k0 v0] o IH]; simpl; [reflexivity|].
  now destruct (String.eqb k' k0).
Qed.

(** Reading a property after an assignment. *)
Lemma own_set (k : string) (v : JSValue) (o : Obj) (k' : string) :
  own (set k v o) k' = if String.eqb k' k then Some v else own o k'.
Proof.
  unfold set. destruct (own o k) eqn:Hk.
  - rewrite own_replace, Hk. reflexivity.
  - destruct (arrayIndex k).
    + now apply own_insertIndex.
    + rewrite own_append. destruct (String.eqb_spec k' k) as [->|ne].
      * now rewrite Hk.
      * now destruct (own o k').
Qed.

(** The keys after an assignment. *)
Lemma keys_set (k : string) (v : JSValue) (o : Obj) (k' : string) :
  In k' (keys (set k v o)) <-> k' = k \/ In k' (keys o).
Proof.
  unfold set. destruct (own o k) eqn:Hk.
  - rewrite keys_replace. apply own_Some_keys in Hk. intuition congruence.
  - destruct (arrayIndex k).
    + apply keys_insertIndex.
    + unfold keys. rewrite map_app, in_app_iff. simpl. intuition congruence.
Qed.

Lemma NoDup_keys_set (k : string) (v : JSValue) (o : Obj) :
  NoDup (keys o) -> NoDup (keys (set k v o)).
Proof.
  intros Hnd. unfold set. destruct (own o k) eqn:Hk.
  - now rewrite keys_replace.
  - apply own_None_keys in Hk. destruct (arrayIndex k).
    + now apply NoDup_insertIndex.
    + unfold keys. rewrite map_app. simpl.
      apply NoDup_snoc; assumption.
Qed.

End ObjectLemmas.

(** ** The result merger *)

Ltac distinct_strings :=
  repeat (constructor; [simpl; intuition discriminate|]); constructor.

Lemma mergeEntry_condition (merged : Obj) (key : string) :
  (negb (truthy (Object.get merged key)) || shortString (Object.get merged key))%bool
  = replaceable (Object.lookup merged key).
Proof.
  unfold Object.get. destruct (Object.lookup merged key) as [v|]; [|reflexivity].
  destruct v as [| |[|]|[q| | |]|[|c s]|items|props|f]; simpl;
    try reflexivity.
  - now destruct (Qeq_bool q 0).
Qed.

(** An inherited member is never [replaceable]: it is a function or an
    object. *)
Lemma replaceable_inherited (k : string) :
  replaceable (Object.inherited k)
  = match Object.inherited k with Some _ => false | None => true end.
Proof.
  unfold Object.inherited.
  destruct (existsb (String.eqb k) Object.prototypeMethods); [reflexivity|].
  destruct (String.eqb k "__proto__"); reflexivity.
Qed.

Lemma own_mergeEntry (merged : Obj) (key : string) (value : JSValue) (k : string) :
  Object.own (mergeEntry merged (key, value)) k
  = if String.eqb k key
    then if replaceable (Object.lookup merged key) then Some value
         else Object.own merged key
    else Object.own merged k.
Proof.
  unfold mergeEntry. rewrite mergeEntry_condition.
  destruct (replaceable (Object.lookup merged key)).
  - apply own_set.
  - now destruct (String.eqb_spec k key) as [->|].
Qed.

Lemma own_mergeLoop (llmData merged : Obj) (k : string) :
  NoDup (Object.keys llmData) ->
  Object.own (fold_left mergeEntry llmData merged) k
  = match Object.own llmData k with
    | Some value =>
        if replaceable (Object.lookup merged k) then Some value
        else Object.own merged k
    | None => Object.own merged k
    end.
Proof.
  revert merged. induction llmData as [|[key value] rest IH]; intros merged Hnd.
  - reflexivity.
  - simpl in Hnd. inversion Hnd as [|? ? Hout Hnd']; subst.
    cbn [fold_left]. rewrite (IH _ Hnd'). unfold Object.lookup.
    rewrite own_mergeEntry. cbn [Object.own].
    destruct (String.eqb_spec k key) as [->|ne].
    + apply own_None_keys in Hout. now rewrite Hout.
    + reflexivity.
Qed.

Lemma own_mergeResults (parserData llmData : Obj) (key : string) :
  NoDup (Object.keys llmData) ->
  key <> "_extraction_sources" ->
  Object.own (mergeResults parserData llmData) key
  = match Object.own llmData key with
    | Some value =>
        if replaceable (Object.lookup parserData key) then Some value
        else Object.own parserData key
    | None => Object.own parserData key
    end.
Proof.
  intros Hnd Hkey. unfold mergeResults. rewrite own_set.
  destruct (String.eqb_spec key "_extraction_sources"); [contradiction|].
  unfold mergeFields, Object.entries, Object.spread.
  now apply own_mergeLoop.
Qed.

Lemma strings_back (l : list string) :
  flat_map (fun v => match v with VString s => [s] | _ => [] end) (map VString l) = l.
Proof.
  induction l as [|x l IH]; simpl; [reflexivity | now rewrite IH].
Qed.

Lemma sourcesOf_set (merged : Obj) (p l h : list string) (which : string)
    (names : list string) :
  Object.get [("parser", strings p); ("llm", strings l); ("hybrid", strings h)] which
  = strings names ->
  sourcesOf
    (Object.set "_extraction_sources"
       (VObject [("parser", strings p); ("llm", strings l); ("hybrid", strings h)])
       merged) which
  = names.
Proof.
  intros H. unfold sourcesOf, Object.get at 1, Object.lookup at 1.
  rewrite own_set, String.eqb_refl, H. apply strings_back.
Qed.

Lemma keys_mergeEntry (merged : Obj) (entry : string * JSValue) (k : string) :
  In k (Object.keys (mergeEntry merged entry))
  <-> In k (Object.keys merged) \/ (k = fst entry /\ Object.inherited k = None).
Proof.
  destruct entry as [key value]. unfold mergeEntry.
  rewrite mergeEntry_condition. simpl fst. unfold Object.lookup.
  destruct (Object.own merged key) as [v|] eqn:Hown.
  - apply own_Some_keys in Hown.
    destruct (replaceable (Some v)); [rewrite keys_set|];
      intuition congruence.
  - rewrite replaceable_inherited.
    destruct (Object.inherited key) as [member|] eqn:Hmember.
    + intuition congruence.
    + rewrite keys_set. intuition congruence.
Qed.

Lemma keys_mergeLoop (llmData merged : Obj) (k : string) :
  In k (Object.keys (fold_left mergeEntry llmData merged))
  <-> In k (Object.keys merged)
      \/ (In k (Object.keys llmData) /\ Object.inherited k = None).
Proof.
  revert merged. induction llmData as [|entry rest IH]; intros merged; simpl.
  - tauto.
  - rewrite IH, keys_mergeEntry. intuition congruence.
Qed.

Lemma keys_mergeResults (parserData llmData : Obj) :
  let merged := mergeFields parserData llmData in
  Object.keys (mergeResults parserData llmData)
  = if in_dec string_dec "_extraction_sources" (Object.keys merged)
    then Object.keys merged
    else (Object.keys merged ++ ["_extraction_sources"])%list.
Proof.
  cbv zeta. unfold mergeResults, Object.set.
  destruct (in_dec string_dec "_extraction_sources"
              (Object.keys (mergeFields parserData llmData))) as [Hin|Hout].
  - destruct (Object.own (mergeFields parserData llmData) "_extraction_sources")
      eqn:E.
    + apply keys_replace.
    + apply own_None_keys in E. contradiction.
  - apply own_None_keys in Hout. rewrite Hout. cbn [Object.arrayIndex]. simpl.
    unfold Object.keys. now rewrite map_app.
Qed.

Lemma inherited_not_sources (key : string) (member : JSValue) :
  Object.inherited key = Some member -> key <> "_extraction_sources".
Proof. intros H ->. discriminate H. Qed.

(** C1.  The claim asks that a value of the LLM map be written when the base
    lacks its key.  The code decides by reading [merged[key]], and for a key
    that names a member every object inherits ([constructor], [toString],
    [valueOf], ...) the read finds that member although the base has no such
    field: nothing is written.  The field of the LLM map is lost from the
    merged map, and the provenance lists it under [llm] but not under
    [hybrid]. *)
Theorem mergeResults_loses_inherited_names (parserData llmData : Obj)
    (key : string) (value member : JSValue) :
  NoDup (Object.keys llmData) ->
  Object.own parserData key = None ->
  Object.own llmData key = Some value ->
  Object.inherited key = Some member ->
  Object.own (mergeResults parserData llmData) key = None
  /\ ~ In key (Object.keys (mergeResults parserData llmData))
  /\ In key (sourcesOf (mergeResults parserData llmData) "llm")
  /\ ~ In key (sourcesOf (mergeResults parserData llmData) "hybrid").
Proof.
  intros Hnd Hbase Hllm Hmember.
  pose proof (inherited_not_sources key member Hmember) as Hkey.
  assert (Hown : Object.own (mergeResults parserData llmData) key = None).
  { rewrite (own_mergeResults _ _ _ Hnd Hkey), Hllm.
    unfold Object.lookup. rewrite Hbase.
    now rewrite replaceable_inherited, Hmember. }
  split; [exact Hown|]. split; [now apply own_None_keys|].
  unfold mergeResults, extractionSources.
  rewrite (sourcesOf_set _ _ _ _ "llm" (Object.keys llmData) eq_refl).
  rewrite (sourcesOf_set _ _ _ _ "hybrid"
             (Object.keys (mergeFields parserData llmData)) eq_refl).
  split; [now apply own_Some_keys in Hllm|].
  unfold mergeFields, Object.entries, Object.spread.
  rewrite keys_mergeLoop. apply own_None_keys in Hbase.
  intros [Hin|[_ Hnone]]; [contradiction | congruence].
Qed.

(** A race result: the model answers with the driver and the constructor,
    and the constructor does not reach the merged map. *)
Lemma mergeResults_loses_inherited_names_witness :
  Object.own (mergeResults raceParserData raceLLMData) "constructor" = None
  /\ ~ In "constructor" (Object.keys (mergeResults raceParserData raceLLMData))
  /\ In "constructor" (sourcesOf (mergeResults raceParserData raceLLMData) "llm")
  /\ ~ In "constructor"
         (sourcesOf (mergeResults raceParserData raceLLMData) "hybrid").
Proof.
  apply (mergeResults_loses_inherited_names raceParserData raceLLMData
           "constructor" (VString "Ferrari") (VFunction "constructor")).
  - simpl. distinct_strings.
  - reflexivity.
  - reflexivity.
  - reflexivity.
Defined.

Example merge_race_result :
  Object.keys (mergeResults raceParserData raceLLMData)
  = ["title"; "driver"; "_extraction_sources"]
  /\ sourcesOf (mergeResults raceParserData raceLLMData) "llm"
     = ["driver"; "constructor"]
  /\ sourcesOf (mergeResults raceParserData raceLLMData) "hybrid"
     = ["title"; "driver"].
Proof. repeat split. Qed.

(** The scenario of the specification: a short string is replaced, a long
    one is kept, a new key is added. *)
Example merge_scenario :
  let merged :=
    mergeResults
      [("a", VString "short"); ("b", VString "a sufficiently long value over ten chars")]
      [("a", VString "llm-a"); ("b", VString "llm-b"); ("c", VString "llm-c")] in
  Object.get merged "a" = VString "llm-a"
  /\ Object.get merged "b" = VString "a sufficiently long value over ten chars"
  /\ Object.get merged "c" = VString "llm-c".
Proof. repeat split. Qed.

(** C7.  The provenance sub-map lists the keys of the parser map under
    [parser], the keys of the LLM map under [llm], and under [hybrid] the
    keys of the merged fields, in their order: every key of the parser map,
    and every key of the LLM map that is not the name of an inherited
    member.  The map returned has exactly the keys listed under [hybrid]
    and, after them, the key [_extraction_sources] under which the sub-map
    is stored (in place, when an input already had a field of that name). *)
Theorem extraction_sources_provenance (parserData llmData : Obj) :
  let result := mergeResults parserData llmData in
  let merged := mergeFields parserData llmData in
  sourcesOf result "parser" = Object.keys parserData
  /\ sourcesOf result "llm" = Object.keys llmData
  /\ sourcesOf result "hybrid" = Object.keys merged
  /\ (forall k, In k (Object.keys merged)
                <-> In k (Object.keys parserData)
                    \/ (In k (Object.keys llmData) /\ Object.inherited k = None))
  /\ (forall k, k <> "_extraction_sources" ->
                Object.own result k = Object.own merged k)
  /\ (~ In "_extraction_sources" (Object.keys merged) ->
      Object.keys result = (Object.keys merged ++ ["_extraction_sources"])%list)
  /\ (In "_extraction_sources" (Object.keys merged) ->
      Object.keys result = Object.keys merged).
Proof.
  cbv zeta. pose proof (keys_mergeResults parserData llmData) as Hkeys.
  cbv zeta in Hkeys. unfold mergeResults, extractionSources in *.
  split; [now apply sourcesOf_set|].
  split; [now apply sourcesOf_set|].
  split; [now apply sourcesOf_set|].
  split; [|split; [|split]].
  - intros k. unfold mergeFields, Object.entries, Object.spread.
    apply keys_mergeLoop.
  - intros k Hk. rewrite own_set.
    destruct (String.eqb_spec k "_extraction_sources");
      [contradiction | reflexivity].
  - intros Hout. rewrite Hkeys.
    destruct (in_dec string_dec _ _); [contradiction | reflexivity].
  - intros Hin. rewrite Hkeys.
    destruct (in_dec string_dec _ _); [reflexivity | contradiction].
Qed.

(** The sub-map is stored after its lists are made, so the key
    [_extraction_sources] is in the map returned and in none of the
    lists. *)
Example provenance_key_not_listed :
  sourcesOf (mergeResults [("title", VString "Widget Pro")] [("price", VString "$49.99")])
    "hybrid"
  = ["title"; "price"]
  /\ Object.keys
       (mergeResults [("title", VString "Widget Pro")] [("price", VString "$49.99")])
     = ["title"; "price"; "_extraction_sources"].
Proof. split; reflexivity. Qed.

(** ** The confidence scorer *)

Lemma filter_length_le {A : Type} (f : A -> bool) (l : list A) :
  length (filter f l) <= length l.
Proof.
  induction l as [|x l IH]; simpl; [lia|]. destruct (f x); simpl; lia.
Qed.

(** The confidence depends on the map and the rules through four counts. *)
Lemma calculateConfidence_counts (data : Obj) (rules : list ParserRule) :
  calculateConfidence data rules
  = confidenceOf
      (length (filter (fun rule => notNullish (Object.get data (name rule)))
                 (filter required rules)))
      (length (filter required rules))
      (length (Object.keys data))
      (length rules).
Proof. reflexivity. Qed.

Lemma inUnitIntervalb_spec (x : number) :
  inUnitIntervalb x = true -> Num.inUnitInterval x.
Proof.
  destruct x as [q| | |]; simpl; try discriminate.
  intros H. apply andb_true_iff in H. destruct H as [H0 H1].
  split; now apply Qle_bool_iff.
Qed.

Lemma confidenceTable_six : confidenceTable 6 = true.
Proof. vm_compute. reflexivity. Qed.

Lemma In_upTo (n k : nat) : k <= n -> In k (upTo n).
Proof. intros H. unfold upTo. apply in_seq. lia. Qed.

(** With at most six rules, no more keys than rules and no more fields
    found than required, the confidence computed in doubles lies between 0
    and 1. *)
Lemma confidenceOf_unit (found required keys total : nat) :
  1 <= total <= 6 -> required <= total -> found <= required -> keys <= total ->
  Num.inUnitInterval (confidenceOf found required keys total).
Proof.
  intros Htotal Hrequired Hfound Hkeys. apply inUnitIntervalb_spec.
  pose proof confidenceTable_six as Htable. unfold confidenceTable in Htable.
  rewrite forallb_forall in Htable.
  assert (Hin : In total (seq 1 6)) by (apply in_seq; lia).
  specialize (Htable total Hin). rewrite forallb_forall in Htable.
  specialize (Htable required (In_upTo _ _ Hrequired)).
  rewrite forallb_forall in Htable.
  specialize (Htable found (In_upTo _ _ Hfound)).
  rewrite forallb_forall in Htable.
  exact (Htable keys (In_upTo _ _ Hkeys)).
Qed.

(** The literals a confidence is compared with.  The doubles written
    [0.3] and [0.6] lie below 3/10 and 6/10 and the next doubles lie above,
    so a double exceeds the literal exactly when it exceeds the fraction;
    [0.5] is the fraction 1/2 itself, neither below nor above. *)
Example threshold_literals :
  Num.ltb (Num.ofFloat 0.3) (Finite (3 # 10)) = true
  /\ Num.ltb (Finite (3 # 10)) (Num.ofFloat (PrimFloat.next_up 0.3)) = true
  /\ Num.ltb (Num.ofFloat 0.6) (Finite (6 # 10)) = true
  /\ Num.ltb (Finite (6 # 10)) (Num.ofFloat (PrimFloat.next_up 0.6)) = true
  /\ Num.ltb (Num.ofFloat 0.5) (Finite (1 # 2)) = false
  /\ Num.ltb (Finite (1 # 2)) (Num.ofFloat 0.5) = false.
Proof. repeat split; vm_compute; reflexivity. Qed.

Lemma extractFromUrl_fetch_throws (url : string)
    (customRules : option (list ParserRule)) (w : World) (c : Calls) (e : Thrown) :
  scrapeAnswer w (scrapeCalls c) = Threw e ->
  extractFromUrl url customRules w c
  = (Returned {| success := false;
                 data := [];
                 confidence := Finite 0;
                 htmlContext := EmptyString;
                 errors := Some [messageOr e "Unknown parsing error"] |},
     fetched c).
Proof.
  intros Hfetch.
  unfold extractFromUrl, tryCatch, bind at 1, scrapeWithBlink, scrape.
  now rewrite Hfetch.
Qed.

Lemma extractFromUrl_fetch_returns (url : string)
    (customRules : option (list ParserRule)) (w : World) (c : Calls)
    (response : ScrapeResponse) :
  scrapeAnswer w (scrapeCalls c) = Returned response ->
  exists result c',
    extractFromUrl url customRules w c = (Returned result, c')
    /\ (let rules :=
          orElse customRules (detectRuleSet url (text (extract response))) in
        let parsedData := applyRules (extract response) rules in
        confidence result = calculateConfidence parsedData rules
        /\ success result = Num.gtb (confidence result) (Finite (3 # 10))
        /\ data result
           = Object.set "metadata"
               (VObject [("title", optString (metaTitle (pageMetadata response)));
                         ("description",
                          optString (metaDescription (pageMetadata response)));
                         ("url", VString url);
                         ("extractedAt", VString (clockAnswer w (clockCalls c)))])
               parsedData
        /\ errors result = None)
    /\ scrapeCalls c' = S (scrapeCalls c)
    /\ objectCalls c' = objectCalls c
    /\ textCalls c' = textCalls c.
Proof.
  intros Hfetch.
  unfold extractFromUrl, tryCatch, bind, scrapeWithBlink, scrape, isoNow, ret.
  rewrite Hfetch. cbv zeta. eexists. eexists.
  split; [reflexivity|]. simpl. repeat split.
Qed.

(** C3.  With an empty rule set nothing is extracted and the coverage score
    is the quotient 0/0: the confidence is not a number, so it does not lie
    between 0 and 1.  An empty list of custom rules handed to the
    rule-based pass is such a rule set, whatever page is fetched.  The
    division of the required score is guarded against a zero count (a rule
    set with no required rule scores 1 there); the division of the coverage
    score is not. *)
Theorem calculateConfidence_empty_rule_set (url : string) (w : World) (c : Calls) :
  calculateConfidence [] [] = NotANumber
  /\ ~ Num.inUnitInterval (calculateConfidence [] [])
  /\ (forall extract, applyRules extract [] = [])
  /\ (exists result c',
        extractFromUrl url (Some []) w c = (Returned result, c')
        /\ forall response,
             scrapeAnswer w (scrapeCalls c) = Returned response ->
             confidence result = NotANumber
             /\ ~ Num.inUnitInterval (confidence result)
             /\ success result = false)
  /\ calculateConfidence [] defaultRules.general = Num.ofFloat 0.7.
Proof.
  split; [reflexivity|]. split; [intros H; exact H|].
  split; [reflexivity|]. split; [|reflexivity].
  destruct (scrapeAnswer w (scrapeCalls c)) as [response|e] eqn:Hfetch.
  - destruct (extractFromUrl_fetch_returns url (Some []) w c response Hfetch)
      as [result [c' [Hrun [[Hconf [Hsucc _]] _]]]].
    exists result, c'. split; [exact Hrun|]. intros _ _.
    cbn [orElse] in Hconf.
    assert (Hnan : confidence result = NotANumber)
      by (rewrite Hconf; reflexivity).
    rewrite Hsucc, Hnan. repeat split. intros H. exact H.
  - rewrite (extractFromUrl_fetch_throws url (Some []) w c e Hfetch).
    eexists. eexists. split; [reflexivity|]. intros response [=].
Qed.

(** A required rule under the name of an inherited member counts as found
    although nothing was extracted: the required score is 1. *)
Example calculateConfidence_inherited_name :
  calculateConfidence [] [rule "constructor" ".builder" None false true]
  = Num.ofFloat 0.7.
Proof. reflexivity. Qed.

(** The ecommerce rules on a product page: four of the six fields, both
    required ones among them.  In doubles the score falls just short of
    nine tenths. *)
Example calculateConfidence_product_page :
  calculateConfidence
    [("title", VString "Widget Pro"); ("price", VString "$49.99");
     ("images", strings []); ("rating", VString "4.5 out of 5")]
    defaultRules.ecommerce
  = Finite (8106479329266892 # 9007199254740992).
Proof. reflexivity. Qed.

(** ** The LLM necessity decision *)

(** C2. With no instruction (none given, or an empty one) the decision is
    [false]; with an instruction it is [true] when the confidence is below
    0.5 or the parse did not succeed; otherwise it is [true] exactly when
    one of [price], [title], [description], [rating], [reviews], [address],
    [contact] occurs in the lower-cased instruction and does not occur in
    the lower-cased field names joined by spaces. *)
Theorem shouldUseLLM_decision (parserResult : ParsedContent)
    (instructions : option string) :
  (noInstructions instructions = true ->
   shouldUseLLM parserResult instructions = false)
  /\ (forall text,
        instructions = Some text -> text <> EmptyString ->
        (Num.ltb (confidence parserResult) (Finite (1 # 2)) = true
         \/ success parserResult = false ->
         shouldUseLLM parserResult instructions = true)
        /\ (Num.ltb (confidence parserResult) (Finite (1 # 2)) = false ->
            success parserResult = true ->
            (shouldUseLLM parserResult instructions = true
             <-> exists field,
                   In field ["price"; "title"; "description"; "rating";
                             "reviews"; "address"; "contact"]
                   /\ occursIn field (toLowerCase text)
                   /\ ~ occursIn field
                        (toLowerCase
                           (join " " (Object.keys (data parserResult))))))).
Proof.
  split.
  - intros Hno. unfold shouldUseLLM. now rewrite Hno.
  - intros text -> Htext.
    assert (Hno : noInstructions (Some text) = false).
    { destruct text; [contradiction | reflexivity]. }
    unfold shouldUseLLM. rewrite Hno. split.
    + intros [Hlow | Hfail].
      * now rewrite Hlow.
      * rewrite Hfail. now destruct (Num.ltb _ _).
    + intros Hlow Hok. rewrite Hlow, Hok. cbn [negb orElse].
      set (wanted := fun field : string => _).
      rewrite Nat.ltb_lt. split.
      * intros Hlen.
        destruct (filter wanted requestedFields) as [|field rest] eqn:E;
          [simpl in Hlen; lia|].
        assert (Hin : In field (filter wanted requestedFields))
          by (rewrite E; now left).
        apply filter_In in Hin. destruct Hin as [Hin Hw].
        exists field. split; [exact Hin|].
        unfold wanted in Hw. apply andb_true_iff in Hw. destruct Hw as [Hi Hx].
        split; [now apply includes_occursIn|].
        intros Hocc. apply includes_occursIn in Hocc.
        rewrite Hocc in Hx. discriminate.
      * intros [field [Hin [Hocc Hmiss]]].
        assert (Hf : In field (filter wanted requestedFields)).
        { apply filter_In. split; [exact Hin|]. unfold wanted.
          apply andb_true_iff. split; [now apply includes_occursIn|].
          destruct (includes _ field) eqn:E; [|reflexivity].
          exfalso. apply Hmiss. now apply includes_occursIn. }
        destruct (filter wanted requestedFields); [destruct Hf | simpl; lia].
Qed.

(** The scenario of the specification: reviews and contact are asked for,
    the parser has a title and a price. *)
Example shouldUseLLM_scenario :
  shouldUseLLM
    {| success := true;
       data := [("title", VString "Widget Pro"); ("price", VString "$49.99")];
       confidence := Finite (4 # 5);
       htmlContext := EmptyString;
       errors := None |}
    (Some "get the reviews and contact info") = true.
Proof. reflexivity. Qed.

Example shouldUseLLM_substring_of_key :
  shouldUseLLM
    {| success := true;
       data := [("subtitle", VString "Second edition"); ("price", VString "$49.99")];
       confidence := Finite (4 # 5);
       htmlContext := EmptyString;
       errors := None |}
    (Some "get the title") = false.
Proof. reflexivity. Qed.

(** ** The rule-based field extractor *)

Section Extractor.

Variable extract : Extract.

Let step := applyRule (text extract) (orElse (headings extract) []) extract.

Lemma applyRule_yields (result : Obj) (r : ParserRule) :
  step result r
  = match yields extract r with
    | Some value => Object.set (name r) value result
    | None => result
    end.
Proof.
  unfold step, applyRule, yields.
  destruct (ruleValue r _ _ _) as [value|e]; [|reflexivity].
  now destruct (notNullish value).
Qed.

Lemma failsOrEmpty_yields (r : ParserRule) :
  failsOrEmpty extract r <-> yields extract r = None.
Proof.
  unfold failsOrEmpty, yields. cbv zeta.
  destruct (ruleValue r _ _ _) as [value|e].
  - destruct value; simpl; split; intros H; try discriminate;
      try reflexivity; try tauto;
      destruct H as [[e He]|[He|He]]; discriminate.
  - split; [reflexivity | intros _; left; now exists e].
Qed.

Lemma yields_defined (r : ParserRule) (value : JSValue) :
  yields extract r = Some value -> notNullish value = true.
Proof.
  unfold yields. destruct (ruleValue r _ _ _) as [v|e]; [|discriminate].
  destruct (notNullish v) eqn:E; [|discriminate]. congruence.
Qed.

Lemma own_applyLoop_defined (rules : list ParserRule) (acc : Obj) :
  (forall k v, Object.own acc k = Some v -> notNullish v = true) ->
  forall k v,
    Object.own (fold_left step rules acc) k = Some v -> notNullish v = true.
Proof.
  revert acc. induction rules as [|r rules IH]; intros acc Hacc; [exact Hacc|].
  cbn [fold_left]. apply IH. rewrite applyRule_yields.
  destruct (yields extract r) as [value|] eqn:E; [|exact Hacc].
  intros k v. rewrite own_set. destruct (String.eqb k (name r)).
  - intros [= <-]. now apply yields_defined in E.
  - apply Hacc.
Qed.

Lemma own_applyLoop_other (rules : list ParserRule) (acc : Obj) (k : string) :
  (forall r, In r rules -> name r <> k) ->
  Object.own (fold_left step rules acc) k = Object.own acc k.
Proof.
  revert acc. induction rules as [|r rules IH]; intros acc Hother; [reflexivity|].
  cbn [fold_left]. rewrite IH by (intros r' Hin; apply Hother; now right).
  rewrite applyRule_yields. destruct (yields extract r); [|reflexivity].
  rewrite own_set. destruct (String.eqb_spec k (name r)) as [->|]; [|reflexivity].
  exfalso. now apply (Hother r (or_introl eq_refl)).
Qed.

Lemma keys_applyLoop (rules : list ParserRule) (acc : Obj) (k : string) :
  In k (Object.keys (fold_left step rules acc))
  <-> In k (Object.keys acc)
      \/ exists r, In r rules /\ name r = k /\ yields extract r <> None.
Proof.
  revert acc. induction rules as [|r rules IH]; intros acc; cbn [fold_left].
  - split; [now left | intros [H|[r [[] _]]]; exact H].
  - rewrite IH, applyRule_yields. destruct (yields extract r) as [value|] eqn:E.
    + rewrite keys_set. split.
      * intros [[->|H]|[r' [Hin H]]].
        -- right. exists r. rewrite E. repeat split; [now left | discriminate].
        -- now left.
        -- right. exists r'. split; [now right | exact H].
      * intros [H|[r' [[<-|Hin] [Hname Hy]]]].
        -- left. now right.
        -- left. now left.
        -- right. now exists r'.
    + split.
      * intros [H|[r' [Hin H]]]; [now left|].
        right. exists r'. split; [now right | exact H].
      * intros [H|[r' [[<-|Hin] [Hname Hy]]]]; [now left | congruence |].
        right. now exists r'.
Qed.

Lemma NoDup_keys_applyLoop (rules : list ParserRule) (acc : Obj) :
  NoDup (Object.keys acc) -> NoDup (Object.keys (fold_left step rules acc)).
Proof.
  revert acc. induction rules as [|r rules IH]; intros acc Hnd; [exact Hnd|].
  cbn [fold_left]. apply IH. rewrite applyRule_yields.
  destruct (yields extract r); [now apply NoDup_keys_set | exact Hnd].
Qed.

(** The keys of an extracted map are distinct names of rules. *)
Lemma applyRules_keys (rules : list ParserRule) :
  NoDup (Object.keys (applyRules extract rules))
  /\ incl (Object.keys (applyRules extract rules)) (map name rules).
Proof.
  unfold applyRules. fold step. split.
  - apply NoDup_keys_applyLoop. constructor.
  - intros k Hin. apply keys_applyLoop in Hin.
    destruct Hin as [[]|[r [Hin [<- _]]]]. now apply in_map.
Qed.

(** C6. The extractor takes the rules one by one: a rule that throws or
    extracts nothing leaves the map as if the rule were not in the list, the
    rules after it are applied all the same, a rule that extracts a value
    has it stored under its name (rule names being distinct), and no key of
    the map holds [null] or [undefined]. *)
Theorem applyRules_independent (rules : list ParserRule) :
  (forall k v,
      Object.own (applyRules extract rules) k = Some v ->
      v <> VNull /\ v <> VUndefined)
  /\ (forall before r after,
        rules = (before ++ r :: after)%list ->
        failsOrEmpty extract r ->
        applyRules extract rules = applyRules extract (before ++ after))
  /\ (NoDup (map name rules) ->
      forall r value,
        In r rules ->
        ruleValue r (text extract) (orElse (headings extract) []) extract
        = Returned value ->
        value <> VNull -> value <> VUndefined ->
        Object.own (applyRules extract rules) (name r) = Some value)
  /\ (forall k,
        In k (Object.keys (applyRules extract rules))
        <-> exists r, In r rules /\ name r = k /\ ~ failsOrEmpty extract r).
Proof.
  unfold applyRules. fold step. repeat split.
  - intros ->. apply (own_applyLoop_defined rules []) in H; [discriminate|].
    intros k' v' [=].
  - intros ->. apply (own_applyLoop_defined rules []) in H; [discriminate|].
    intros k' v' [=].
  - intros before r after -> Hfail. apply failsOrEmpty_yields in Hfail.
    rewrite !fold_left_app. cbn [fold_left].
    now rewrite applyRule_yields, Hfail.
  - intros Hnd r value Hin Hvalue Hnull Hundef.
    apply in_split in Hin. destruct Hin as [before [after ->]].
    rewrite fold_left_app. cbn [fold_left].
    rewrite own_applyLoop_other.
    + rewrite applyRule_yields. unfold yields. rewrite Hvalue.
      destruct value; try contradiction; simpl;
        now rewrite own_set, String.eqb_refl.
    + intros r' Hin' Hname. rewrite map_app in Hnd. simpl in Hnd.
      apply NoDup_remove_2 in Hnd. apply Hnd. rewrite in_app_iff. right.
      rewrite <- Hname. now apply in_map.
  - intros Hin. apply keys_applyLoop in Hin.
    destruct Hin as [[]|[r [Hin [Hname Hy]]]]. exists r.
    repeat split; try assumption. now rewrite failsOrEmpty_yields.
  - intros [r [Hin [Hname Hy]]]. apply keys_applyLoop. right. exists r.
    repeat split; try assumption. now rewrite <- failsOrEmpty_yields.
Qed.

End Extractor.

(** The product page of the specification. *)
Example extract_prices_and_rating :
  let page := "Widget Pro" ++ nl ++ "$49.99" ++ nl ++ "$79.99" ++ nl
              ++ "Great product, 4.5 out of 5 stars" ++ nl in
  extractPrices page true = strings ["$49.99"; "$79.99"]
  /\ extractPrices page false = VString "$49.99"
  /\ extractRating page = VString "4.5 out of 5".
Proof. repeat split. Qed.

(** A rule whose [transform] throws is skipped; the rule after it is
    applied. *)
Example applyRules_transform_throws :
  applyRules
    {| text := "Widget Pro: $49.99"; headings := Some ["Widget Pro"];
       links := None; images := None |}
    [ {| name := "title"; selector := "h1"; attribute := None;
         multiple := false; required := true;
         transform := Some (fun _ => Threw (ErrorObject "bad title")) |};
      rule "price" ".price" None false true ]
  = [("price", VString "$49.99")].
Proof. reflexivity. Qed.

(** ** The title rule *)

Lemma nonEmpty_true (s : string) : nonEmpty s = true <-> s <> EmptyString.
Proof. destruct s; simpl; split; intros H; congruence. Qed.

Lemma nonEmpty_false (s : string) : nonEmpty s = false <-> s = EmptyString.
Proof. destruct s; simpl; split; intros H; congruence. Qed.

Lemma filter_blank (lines : list string) :
  Forall blankLine lines ->
  filter (fun line => nonEmpty (trim line)) lines = [].
Proof.
  induction 1 as [|line lines Hline _ IH]; simpl; [reflexivity|].
  unfold blankLine in Hline. now rewrite Hline.
Qed.

Lemma extractTitle_first_line (text : string) (blank : list string)
    (line : string) (after : list string) :
  splitLines text = (blank ++ line :: after)%list ->
  Forall blankLine blank ->
  ~ blankLine line ->
  extractTitle text = VString (trim line).
Proof.
  intros Hsplit Hblank Hline. unfold extractTitle.
  rewrite Hsplit, filter_app, (filter_blank blank Hblank). simpl.
  apply nonEmpty_true in Hline. rewrite Hline. simpl. now rewrite Hline.
Qed.

Lemma extractTitle_all_blank (text : string) :
  Forall blankLine (splitLines text) -> extractTitle text = VNull.
Proof.
  intros Hblank. unfold extractTitle. now rewrite filter_blank.
Qed.

(** C8 (amended). The title rule yields the first heading when that heading
    is not empty.  When there is no heading or the first heading is empty,
    it yields the first non-blank line of the body text, trimmed, and
    nothing when every line is blank; the headings after the first are not
    looked at. *)
Theorem title_rule (r : ParserRule) (text : string) (headings : list string)
    (extract : Extract) :
  name r = "title" ->
  (forall first rest,
      headings = first :: rest -> first <> EmptyString ->
      extractByRule r text headings extract = VString first)
  /\ (headings = [] \/ (exists rest, headings = EmptyString :: rest) ->
      (forall blank line after,
          splitLines text = (blank ++ line :: after)%list ->
          Forall blankLine blank ->
          ~ blankLine line ->
          extractByRule r text headings extract = VString (trim line))
      /\ (Forall blankLine (splitLines text) ->
          extractByRule r text headings extract = VNull)).
Proof.
  intros Hname. unfold extractByRule. rewrite Hname. cbn [String.eqb Ascii.eqb Bool.eqb].
  split.
  - intros first rest -> Hfirst. apply nonEmpty_true in Hfirst.
    now rewrite Hfirst.
  - intros Hhead.
    assert (Hfall : match headings with
                    | first :: _ =>
                        if nonEmpty first then VString first else extractTitle text
                    | [] => extractTitle text
                    end = extractTitle text).
    { destruct Hhead as [->|[rest ->]]; reflexivity. }
    rewrite Hfall. split.
    + intros blank line after. apply extractTitle_first_line.
    + apply extractTitle_all_blank.
Qed.

Lemma title_rule_witness :
  extractByRule (rule "title" "h1, title, .main-title" None false false)
    ("   " ++ nl ++ "  Widget Pro  " ++ nl ++ "$49.99") []
    {| text := "   " ++ nl ++ "  Widget Pro  " ++ nl ++ "$49.99";
       headings := None; links := None; images := None |}
  = VString "Widget Pro".
Proof.
  destruct (title_rule (rule "title" "h1, title, .main-title" None false false)
              ("   " ++ nl ++ "  Widget Pro  " ++ nl ++ "$49.99") []
              {| text := "   " ++ nl ++ "  Widget Pro  " ++ nl ++ "$49.99";
                 headings := None; links := None; images := None |}
              eq_refl) as [_ Hbody].
  destruct (Hbody (or_introl eq_refl)) as [Hline _].
  apply (Hline ["   "] "  Widget Pro  " ["$49.99"]).
  - reflexivity.
  - repeat constructor.
  - discriminate.
Defined.

(** C8, as stated, fails: with an empty first heading the rule turns to the
    body text, although a later heading is not empty. *)
Lemma title_ignores_later_headings :
  exists heading,
    find nonEmpty [EmptyString; "Real Title"] = Some heading
    /\ extractByRule (rule "title" "h1, title, .main-title" None false false)
         "Body line" [EmptyString; "Real Title"]
         {| text := "Body line"; headings := Some [EmptyString; "Real Title"];
            links := None; images := None |}
       <> VString heading.
Proof.
  exists "Real Title". split; [reflexivity|]. vm_compute. discriminate.
Qed.

(** ** URL expansion *)

Lemma slice_from_start {A : Type} (stop : Z) (xs : list A) :
  slice 0 stop xs
  = firstn (Z.to_nat (Z.max (if (stop <? 0)%Z
                             then Z.max (Z.of_nat (length xs) + stop) 0
                             else Z.min stop (Z.of_nat (length xs))) 0)) xs.
Proof.
  unfold slice. cbn [Z.ltb Z.compare].
  replace (Z.min 0 (Z.of_nat (length xs))) with 0%Z by lia.
  now rewrite Z.sub_0_r.
Qed.

Lemma slice_prefix {A : Type} (stop : Z) (xs : list A) :
  exists dropped, xs = (slice 0 stop xs ++ dropped)%list.
Proof.
  rewrite slice_from_start. eexists. symmetry. apply firstn_skipn.
Qed.

Lemma slice_length {A : Type} (stop : Z) (xs : list A) :
  (0 < stop)%Z -> (Z.of_nat (length (slice 0 stop xs)) <= stop)%Z.
Proof.
  intros Hpos. rewrite slice_from_start.
  destruct (Z.ltb_spec stop 0) as [Hneg|_]; [lia|].
  rewrite length_firstn. lia.
Qed.

Lemma existsb_eqb_In (x : string) (l : list string) :
  existsb (String.eqb x) l = true <-> In x l.
Proof.
  rewrite existsb_exists. split.
  - intros [y [Hin Heq]]. apply String.eqb_eq in Heq. now subst.
  - intros Hin. exists x. split; [exact Hin | apply String.eqb_refl].
Qed.

Lemma filter_notIn_remove (seen : list string) (x : string) (l : list string) :
  In x seen ->
  filter (notIn seen) (remove string_dec x l) = filter (notIn seen) l.
Proof.
  intros Hin. induction l as [|y l IH]; simpl; [reflexivity|].
  destruct (string_dec x y) as [<-|ne]; simpl.
  - unfold notIn at 2. apply existsb_eqb_In in Hin. now rewrite Hin.
  - now rewrite IH.
Qed.

Lemma filter_notIn_snoc (seen : list string) (x : string) (l : list string) :
  filter (notIn (seen ++ [x])) l = filter (notIn seen) (remove string_dec x l).
Proof.
  induction l as [|y l IH]; simpl; [reflexivity|].
  assert (Hy : notIn (seen ++ [x]) y
               = (notIn seen y && negb (String.eqb y x))%bool).
  { unfold notIn. rewrite existsb_app. simpl.
    rewrite orb_false_r. apply negb_orb. }
  rewrite Hy. destruct (string_dec x y) as [<-|ne].
  - rewrite String.eqb_refl, andb_false_r. exact IH.
  - assert (Hne : String.eqb y x = false)
      by (apply String.eqb_neq; congruence).
    rewrite Hne, andb_true_r. simpl.
    destruct (notIn seen y); now rewrite IH.
Qed.

Lemma unique_loop (xs seen : list string) :
  fold_left uniqueStep xs seen
  = (seen ++ filter (notIn seen) (firstOccurrences xs))%list.
Proof.
  revert seen. induction xs as [|x xs IH]; intros seen; simpl.
  - now rewrite app_nil_r.
  - rewrite IH. unfold uniqueStep.
    destruct (existsb (String.eqb x) seen) eqn:E.
    + unfold notIn at 2. rewrite E. simpl.
      rewrite filter_notIn_remove; [reflexivity | now apply existsb_eqb_In].
    + unfold notIn at 2. rewrite E. simpl.
      now rewrite <- app_assoc, filter_notIn_snoc.
Qed.

(** De-duplication through a set keeps each URL at its first occurrence. *)
Lemma unique_firstOccurrences (xs : list string) :
  unique xs = firstOccurrences xs.
Proof.
  unfold unique. rewrite unique_loop. simpl.
  apply forallb_filter_id.
  apply forallb_forall. reflexivity.
Qed.

Lemma NoDup_remove_all (x : string) (l : list string) :
  NoDup l -> NoDup (remove string_dec x l).
Proof.
  induction 1 as [|y l Hy Hnd IH]; simpl; [constructor|].
  destruct (string_dec x y); [exact IH|]. constructor; [|exact IH].
  intros Hin. apply in_remove in Hin. tauto.
Qed.

Lemma NoDup_firstOccurrences (xs : list string) : NoDup (firstOccurrences xs).
Proof.
  induction xs as [|x xs IH]; simpl; constructor.
  - apply remove_In.
  - now apply NoDup_remove_all.
Qed.

Lemma In_firstOccurrences (xs : list string) (x : string) :
  In x (firstOccurrences xs) <-> In x xs.
Proof.
  induction xs as [|y xs IH]; simpl; [tauto|].
  split.
  - intros [->|Hin]; [now left|]. apply in_remove in Hin. right. tauto.
  - intros [->|Hin]; [now left|].
    destruct (string_dec x y) as [->|ne]; [now left|].
    right. apply in_in_remove; [exact ne | tauto].
Qed.

Lemma expandUrl_contribution (settings : ScrapingSettings) (allUrls : list string)
    (url : string) (w : World) (c : Calls) :
  expandUrl settings allUrls url w c
  = (Returned (allUrls ++ contribution settings url (scrapeAnswer w (scrapeCalls c)))%list,
     if flagSet (followPagination settings) then fetched c else c).
Proof.
  unfold expandUrl, contribution.
  destruct (flagSet (followPagination settings)).
  - unfold handlePagination, scrapeWithBlink, tryCatch, bind, scrape, ret.
    destruct (scrapeAnswer w (scrapeCalls c)) as [response|e]; simpl;
      now rewrite <- app_assoc.
  - reflexivity.
Qed.

Lemma expandLoop_contributions (settings : ScrapingSettings)
    (targetUrls allUrls : list string) (w : World) (c : Calls) :
  exists c',
    expandLoop settings targetUrls allUrls w c
    = (Returned (allUrls
                 ++ contributions settings (scrapeAnswer w) (scrapeCalls c)
                      targetUrls)%list, c').
Proof.
  revert allUrls c. induction targetUrls as [|url rest IH]; intros allUrls c.
  - exists c. simpl. unfold ret. now rewrite app_nil_r.
  - cbn [expandLoop contributions]. unfold bind.
    rewrite expandUrl_contribution.
    destruct (IH (allUrls ++ contribution settings url
                                 (scrapeAnswer w (scrapeCalls c)))%list
                 (if flagSet (followPagination settings) then fetched c else c))
      as [c' Hc'].
    exists c'. rewrite Hc', <- app_assoc.
    now destruct (flagSet (followPagination settings)).
Qed.

Lemma expandUrls_value (settings : ScrapingSettings) (targetUrls : list string)
    (w : World) (c : Calls) :
  exists c',
    expandUrls settings targetUrls w c
    = (Returned
         (slice 0 (orElseZ (maxPages settings) 50)
            (firstOccurrences
               (contributions settings (scrapeAnswer w) (scrapeCalls c)
                  targetUrls))), c').
Proof.
  destruct (expandLoop_contributions settings targetUrls [] w c) as [c' Hloop].
  exists c'. unfold expandUrls, bind. rewrite Hloop. unfold ret. cbn [app].
  now rewrite unique_firstOccurrences.
Qed.

Lemma slice_length_exact {A : Type} (stop : Z) (xs : list A) :
  (0 <= stop)%Z ->
  Z.of_nat (length (slice 0 stop xs)) = Z.min stop (Z.of_nat (length xs)).
Proof.
  intros Hstop. rewrite slice_from_start.
  destruct (Z.ltb_spec stop 0) as [Hneg|_]; [lia|].
  rewrite length_firstn. lia.
Qed.

Lemma NoDup_slice (stop : Z) (xs : list string) :
  NoDup xs -> NoDup (slice 0 stop xs).
Proof.
  intros Hnd. destruct (slice_prefix stop xs) as [dropped Hprefix].
  rewrite Hprefix in Hnd. now apply NoDup_app_remove_r in Hnd.
Qed.

Lemma contributions_targets (settings : ScrapingSettings)
    (answers : nat -> Outcome ScrapeResponse) (n : nat)
    (targetUrls : list string) (u : string) :
  In u targetUrls -> In u (contributions settings answers n targetUrls).
Proof.
  revert n. induction targetUrls as [|url rest IH]; intros n; [intros []|].
  cbn [contributions]. rewrite in_app_iff. intros [<-|Hin].
  - left. now left.
  - right. now apply IH.
Qed.

(** C10 (amended).  URL expansion always returns, and what it returns is
    this: the targets' contributions, one after the other, each URL kept at
    its first occurrence, cut to the first [limit] URLs, where [limit] is
    [maxPages] when that setting is a number other than zero and 50 when it
    is missing or zero.  A target contributes itself and, when pagination is
    followed and its page is fetched, the pagination links of the page; a
    target whose fetch fails contributes only itself, and the contributions
    of the other targets are what they are without it.  So the list has no
    duplicates, holds every target unless the cut drops it, and for a limit
    that is not negative has the smaller of [limit] and the number of
    distinct URLs as its length. *)
Theorem expandUrls_bounded (settings : ScrapingSettings)
    (targetUrls : list string) (w : World) (c : Calls) :
  let all := contributions settings (scrapeAnswer w) (scrapeCalls c) targetUrls in
  let limit := orElseZ (maxPages settings) 50 in
  let urls := slice 0 limit (firstOccurrences all) in
  (exists c', expandUrls settings targetUrls w c = (Returned urls, c'))
  /\ NoDup urls
  /\ (exists dropped, firstOccurrences all = (urls ++ dropped)%list)
  /\ ((0 <= limit)%Z ->
      Z.of_nat (length urls)
      = Z.min limit (Z.of_nat (length (firstOccurrences all))))
  /\ (forall u, In u (firstOccurrences all) <-> In u all)
  /\ (forall u, In u targetUrls -> In u all)
  /\ (forall answers n url rest,
        contributions settings answers n (url :: rest)
        = (contribution settings url (answers n)
           ++ contributions settings answers
                (if flagSet (followPagination settings) then S n else n) rest)%list)
  /\ (forall url e, contribution settings url (Threw e) = [url])
  /\ (forall url response,
        contribution settings url (Returned response)
        = url :: (if flagSet (followPagination settings)
                  then paginationLinksOf settings response else []))
  /\ (forall n, maxPages settings = Some n -> n <> 0%Z -> limit = n)
  /\ (maxPages settings = None \/ maxPages settings = Some 0%Z -> limit = 50%Z).
Proof.
  cbv zeta.
  set (all := contributions settings (scrapeAnswer w) (scrapeCalls c) targetUrls).
  split; [apply expandUrls_value|].
  split; [apply NoDup_slice, NoDup_firstOccurrences|].
  split.
  { destruct (slice_prefix (orElseZ (maxPages settings) 50) (firstOccurrences all))
      as [dropped Hprefix]. now exists dropped. }
  split; [apply slice_length_exact|].
  split; [intros u; apply In_firstOccurrences|].
  split; [intros u; apply contributions_targets|].
  split; [reflexivity|].
  split.
  { intros url e. unfold contribution.
    now destruct (flagSet (followPagination settings)). }
  split; [reflexivity|].
  split.
  - intros n -> Hn. destruct n; [contradiction | reflexivity..].
  - intros [-> | ->]; reflexivity.
Qed.

(** C10, as stated, fails: with [maxPages] set to zero the limit is 50, and
    one target URL comes back. *)
Lemma expandUrls_zero_maxPages :
  exists urls c',
    expandUrls
      (constructorSettings
         {| argMaxPages := Present (Some 0%Z); argDelay := Absent;
            argTimeout := Absent; argFollowPagination := Absent;
            argEnableJavaScript := Absent |})
      ["https://shop.example/list"] deadWorld noCalls
    = (Returned urls, c')
    /\ ~ (Z.of_nat (length urls) <= 0)%Z.
Proof.
  exists ["https://shop.example/list"], noCalls.
  split; [reflexivity | simpl; lia].
Qed.

(** A target listed twice and a failing pagination fetch: one URL comes
    back. *)
Example expandUrls_dead_world :
  fst (expandUrls
         (constructorSettings
            {| argMaxPages := Absent; argDelay := Absent; argTimeout := Absent;
               argFollowPagination := Present (Some true);
               argEnableJavaScript := Absent |})
         ["https://shop.example/list"; "https://shop.example/list"]
         deadWorld noCalls)
  = Returned ["https://shop.example/list"].
Proof. reflexivity. Qed.

(** ** Failures on the per-URL paths *)

Lemma neverThrows_ret {A : Type} (a : A) : neverThrows (ret a).
Proof. intros w c. now exists a, c. Qed.

Lemma neverThrows_bind {A B : Type} (m : Run A) (k : A -> Run B) :
  neverThrows m -> (forall a, neverThrows (k a)) -> neverThrows (bind m k).
Proof.
  intros Hm Hk w c. unfold bind.
  destruct (Hm w c) as [a [c' ->]]. apply Hk.
Qed.

Lemma neverThrows_tryCatch {A : Type} (m : Run A) (handler : Thrown -> Run A) :
  (forall e, neverThrows (handler e)) -> neverThrows (tryCatch m handler).
Proof.
  intros Hh w c. unfold tryCatch.
  destruct (m w c) as [[a|e] c'].
  - now exists a, c'.
  - apply Hh.
Qed.

Lemma extractFromUrl_neverThrows (url : string)
    (customRules : option (list ParserRule)) :
  neverThrows (extractFromUrl url customRules).
Proof.
  apply neverThrows_tryCatch. intros e. apply neverThrows_ret.
Qed.

Lemma extractFromContent_neverThrows (content instructions url : string) :
  neverThrows (LLMExtractor.extractFromContent content instructions url).
Proof.
  apply neverThrows_tryCatch. intros e. apply neverThrows_ret.
Qed.

Lemma extractWithFallback_neverThrows (content instructions url : string) :
  neverThrows (LLMExtractor.extractWithFallback content instructions url).
Proof.
  unfold LLMExtractor.extractWithFallback.
  apply neverThrows_bind; [apply extractFromContent_neverThrows|].
  intros result. destruct (Num.ltb _ _); [|apply neverThrows_ret].
  apply neverThrows_bind.
  { apply neverThrows_tryCatch. intros e. apply neverThrows_ret. }
  intros cleaned.
  apply neverThrows_bind; [apply extractFromContent_neverThrows|].
  intros fallback. destruct (Num.gtb _ _); apply neverThrows_ret.
Qed.

Lemma generateExtractionSummary_neverThrows (results : Obj)
    (instructions url : string) :
  neverThrows (LLMExtractor.generateExtractionSummary results instructions url).
Proof.
  apply neverThrows_tryCatch. intros e. apply neverThrows_ret.
Qed.

Lemma hybridExtraction_fetch_throws (url : string) (parserResult : ParsedContent)
    (instructions : string) (w : World) (c : Calls) (e : Thrown) :
  scrapeAnswer w (scrapeCalls c) = Threw e ->
  hybridExtraction url parserResult instructions w c
  = (Returned (parserFallback url parserResult), fetched c).
Proof.
  intros Hfetch. unfold hybridExtraction, tryCatch, bind at 1, scrape.
  now rewrite Hfetch.
Qed.

Lemma hybridExtraction_fetch_returns (url : string) (parserResult : ParsedContent)
    (instructions : string) (w : World) (c : Calls) (response : ScrapeResponse) :
  scrapeAnswer w (scrapeCalls c) = Returned response ->
  exists result c',
    hybridExtraction url parserResult instructions w c = (Returned result, c')
    /\ extractionSource (metadata result) = hybrid.
Proof.
  intros Hfetch. unfold hybridExtraction, tryCatch, bind at 1, scrape.
  rewrite Hfetch. unfold bind at 1.
  destruct (extractWithFallback_neverThrows
              (markdown response ++ nl ++ nl ++ text (extract response))
              instructions url w (fetched c)) as [llmResult [c1 Hllm]].
  unfold fetched in Hllm. rewrite Hllm. unfold bind.
  destruct (generateExtractionSummary_neverThrows
              (mergeResults (data parserResult) (LLMExtractor.data llmResult))
              instructions url w c1) as [summary [c2 Hsummary]].
  rewrite Hsummary. unfold ret. eexists. eexists. split; reflexivity.
Qed.

Lemma llmOnlyExtraction_fetch_throws (url instructions : string) (w : World)
    (c : Calls) (e : Thrown) :
  scrapeAnswer w (scrapeCalls c) = Threw e ->
  llmOnlyExtraction url instructions w c = (Threw (llmOnlyError e), fetched c).
Proof.
  intros Hfetch. unfold llmOnlyExtraction, tryCatch, bind at 1, scrape.
  now rewrite Hfetch.
Qed.

Lemma llmOnlyExtraction_fetch_returns (url instructions : string) (w : World)
    (c : Calls) (response : ScrapeResponse) :
  scrapeAnswer w (scrapeCalls c) = Returned response ->
  exists result c',
    llmOnlyExtraction url instructions w c = (Returned result, c')
    /\ extractionSource (metadata result) = llm.
Proof.
  intros Hfetch. unfold llmOnlyExtraction, tryCatch, bind at 1, scrape.
  rewrite Hfetch. unfold bind.
  destruct (extractWithFallback_neverThrows
              (markdown response ++ nl ++ nl ++ text (extract response))
              instructions url w (fetched c)) as [llmResult [c1 Hllm]].
  unfold fetched in Hllm. rewrite Hllm. unfold ret.
  eexists. eexists. split; reflexivity.
Qed.

Lemma processUrl_branches (url : string) (job : ScrapingJob) (w : World)
    (c c1 : Calls) (parserResult : ParsedContent) :
  extractFromUrl url None w c = (Returned parserResult, c1) ->
  processUrl url job w c
  = tryCatch
      (match branchOf parserResult job with
       | HybridBranch =>
           hybridExtraction url parserResult
             (orElse (extractionInstructions job) EmptyString)
       | ParserBranch =>
           ret {| url := url;
                  content := data parserResult;
                  metadata :=
                    {| extractionSource := parser;
                       metaHtmlContext := Some (htmlContext parserResult);
                       explanation := None |} |}
       | LLMOnlyBranch =>
           llmOnlyExtraction url
             (if noInstructions (extractionInstructions job)
              then "Extract all relevant data"
              else orElse (extractionInstructions job) EmptyString)
       end)
      (fun error => ret (failedResult url error)) w c1.
Proof.
  intros Hparse. unfold processUrl, tryCatch, bind, branchOf.
  rewrite Hparse.
  destruct (shouldUseLLM parserResult (extractionInstructions job)
            && negb (noInstructions (extractionInstructions job)))%bool;
    [reflexivity|].
  destruct (success parserResult
            && Num.gtb (confidence parserResult) (Finite (6 # 10)))%bool;
    reflexivity.
Qed.



(** A site that is down: with instructions the result is the (empty) parser
    result tagged [parser]; without instructions it is tagged [failed]. *)
Example processUrl_dead_world_with_instructions :
  fst (processUrl "https://shop.example/item"
         {| id := "job_1"; userId := "u1"; jobName := "demo";
            targetUrls := ["https://shop.example/item"];
            extractionInstructions := Some "get the price" |}
         deadWorld noCalls)
  = Returned
      {| url := "https://shop.example/item";
         content := [];
         metadata :=
           {| extractionSource := parser;
              metaHtmlContext := Some EmptyString;
              explanation := Some "Hybrid extraction failed, using parser results" |} |}.
Proof. reflexivity. Qed.

Example processUrl_dead_world_without_instructions :
  fst (processUrl "https://shop.example/item"
         {| id := "job_1"; userId := "u1"; jobName := "demo";
            targetUrls := ["https://shop.example/item"];
            extractionInstructions := None |}
         deadWorld noCalls)
  = Returned
      {| url := "https://shop.example/item";
         content := [];
         metadata :=
           {| extractionSource := failed;
              metaHtmlContext := None;
              explanation := Some "LLM extraction failed: fetch failed" |} |}.
Proof. reflexivity. Qed.

(** The page is fetched once and parsed, then the site goes down: the hybrid
    path keeps what the parser found; the LLM-only path has nothing. *)
Example processUrl_second_fetch_fails_hybrid :
  exists result,
    fst (processUrl "https://shop.example/item"
           {| id := "job_1"; userId := "u1"; jobName := "demo";
              targetUrls := ["https://shop.example/item"];
              extractionInstructions := Some "get the reviews" |}
           (oneFetchWorld
              {| markdown := "# Widget Pro";
                 pageMetadata := {| metaTitle := Some "Widget Pro";
                                    metaDescription := None |};
                 extract := {| text := "Widget Pro" ++ nl ++ "$49.99";
                               headings := Some ["Widget Pro"];
                               links := None; images := None |};
                 pageLinks := [] |})
           noCalls)
    = Returned result
    /\ extractionSource (metadata result) = parser
    /\ Object.get (content result) "title" = VString "Widget Pro"
    /\ Object.get (content result) "price" = VString "$49.99"
    /\ explanation (metadata result)
       = Some "Hybrid extraction failed, using parser results".
Proof. eexists. split; [reflexivity|]. repeat split. Qed.

Example processUrl_second_fetch_fails_llm_only :
  fst (processUrl "https://hotel.example/rooms"
         {| id := "job_2"; userId := "u1"; jobName := "demo";
            targetUrls := ["https://hotel.example/rooms"];
            extractionInstructions := None |}
         (oneFetchWorld
            {| markdown := "Welcome";
               pageMetadata := {| metaTitle := None; metaDescription := None |};
               extract := {| text := "Welcome"; headings := None;
                             links := None; images := None |};
               pageLinks := [] |})
         noCalls)
  = Returned (failedResult "https://hotel.example/rooms"
                (llmOnlyError (ErrorObject "fetch failed"))).
Proof. reflexivity. Qed.

(** * Further properties *)

(** ** The rule-based pass as a whole *)

(** The confidence of a map extracted by at most six rules. *)
Lemma calculateConfidence_unit (extract : Extract) (rules : list ParserRule) :
  1 <= length rules <= 6 ->
  Num.inUnitInterval (calculateConfidence (applyRules extract rules) rules).
Proof.
  intros Hrules. rewrite calculateConfidence_counts.
  apply confidenceOf_unit; [exact Hrules | apply filter_length_le.. |].
  destruct (applyRules_keys extract rules) as [Hnd Hincl].
  rewrite <- (length_map name rules). now apply NoDup_incl_length.
Qed.

Lemma detectRuleSet_length (url content : string) :
  1 <= length (detectRuleSet url content) <= 6.
Proof.
  rewrite detectRuleSet_classify.
  destruct (classify url content); simpl; lia.
Qed.

Lemma detectRuleSet_not_empty (url content : string) :
  detectRuleSet url content <> [].
Proof.
  rewrite detectRuleSet_classify.
  destruct (classify url content); discriminate.
Qed.

(** X3.  The extracted map has distinct keys, each the name of a rule, so it
    never has more keys than there are rules. *)
Theorem applyRules_key_count (extract : Extract) (rules : list ParserRule) :
  NoDup (Object.keys (applyRules extract rules))
  /\ (forall k, In k (Object.keys (applyRules extract rules)) ->
                exists r, In r rules /\ name r = k)
  /\ length (Object.keys (applyRules extract rules)) <= length rules.
Proof.
  destruct (applyRules_keys extract rules) as [Hnd Hincl].
  split; [exact Hnd|]. split.
  - intros k Hin. apply Hincl in Hin. apply in_map_iff in Hin.
    destruct Hin as [r [Hname Hin]]. now exists r.
  - rewrite <- (length_map name rules). now apply NoDup_incl_length.
Qed.

(** X1.  The rule-based pass never throws.  When the fetch throws it reports a
    failure with no fields, confidence 0 and the error message.  When the
    fetch answers, every extracted field but one named [metadata] is in the
    result unchanged, the field [metadata] of the result is the page
    metadata with the URL (it takes the place of an extracted field of that
    name), and success is decided by the confidence alone. *)
Theorem extractFromUrl_outcome (url : string)
    (customRules : option (list ParserRule)) (w : World) (c : Calls) :
  exists result c',
    extractFromUrl url customRules w c = (Returned result, c')
    /\ success result = Num.gtb (confidence result) (Finite (3 # 10))
    /\ (forall e, scrapeAnswer w (scrapeCalls c) = Threw e ->
          data result = []
          /\ confidence result = Finite 0
          /\ errors result = Some [messageOr e "Unknown parsing error"])
    /\ (forall response,
          scrapeAnswer w (scrapeCalls c) = Returned response ->
          let rules :=
            orElse customRules (detectRuleSet url (text (extract response))) in
          errors result = None
          /\ (forall k, k <> "metadata" ->
                Object.own (data result) k
                = Object.own (applyRules (extract response) rules) k)
          /\ (exists props,
                Object.own (data result) "metadata" = Some (VObject props)
                /\ Object.own props "url" = Some (VString url))).
Proof.
  destruct (scrapeAnswer w (scrapeCalls c)) as [response|e] eqn:Hfetch.
  - destruct (extractFromUrl_fetch_returns url customRules w c response Hfetch)
      as [result [c' [Hrun [[Hconf [Hsucc [Hdata Herr]]] _]]]].
    exists result, c'. split; [exact Hrun|]. split; [exact Hsucc|]. split.
    + intros e [=].
    + intros response' [= <-]. cbv zeta. split; [exact Herr|]. split.
      * intros k Hk. rewrite Hdata, own_set.
        destruct (String.eqb_spec k "metadata"); [contradiction | reflexivity].
      * eexists. rewrite Hdata, own_set, String.eqb_refl.
        split; reflexivity.
  - rewrite (extractFromUrl_fetch_throws url customRules w c e Hfetch).
    eexists. eexists. split; [reflexivity|]. split; [reflexivity|]. split.
    + intros e' [= <-]. repeat split.
    + intros response [=].
Qed.

(** X2.  With the built-in rule sets the confidence of the rule-based pass,
    computed in doubles, lies between 0 and 1 in every world, and a
    successful pass has a confidence above 0.3. *)
Theorem extractFromUrl_confidence_unit (url : string) (w : World) (c : Calls) :
  exists result c',
    extractFromUrl url None w c = (Returned result, c')
    /\ Num.inUnitInterval (confidence result)
    /\ (success result = true ->
        exists q, confidence result = Finite q /\ (3 # 10 < q)%Q).
Proof.
  destruct (scrapeAnswer w (scrapeCalls c)) as [response|e] eqn:Hfetch.
  - destruct (extractFromUrl_fetch_returns url None w c response Hfetch)
      as [result [c' [Hrun [[Hconf [Hsucc _]] _]]]].
    exists result, c'. split; [exact Hrun|].
    assert (Hunit : Num.inUnitInterval (confidence result)).
    { rewrite Hconf. cbn [orElse].
      apply calculateConfidence_unit, detectRuleSet_length. }
    split; [exact Hunit|].
    intros Hok. rewrite Hsucc in Hok.
    destruct (confidence result) as [q| | |]; try contradiction.
    exists q. split; [reflexivity|].
    unfold Num.gtb, Num.ltb in Hok. apply negb_true_iff in Hok.
    apply Qnot_le_lt. intros Hle. apply Qle_bool_iff in Hle. congruence.
  - rewrite (extractFromUrl_fetch_throws url None w c e Hfetch).
    eexists. eexists. split; [reflexivity|]. simpl. split.
    + split; [apply Qle_refl | discriminate].
    + discriminate.
Qed.

(** ** The LLM-assisted extractor *)

Lemma ltb_irrefl (x : number) : Num.ltb x x = false.
Proof.
  destruct x as [q| | |]; simpl; try reflexivity.
  apply negb_false_iff. apply Qle_bool_iff. apply Qle_refl.
Qed.

Lemma ltb_asym (x y : number) : Num.ltb x y = true -> Num.ltb y x = false.
Proof.
  destruct x as [a| | |], y as [b| | |]; simpl; try congruence.
  intros H. apply negb_true_iff in H. apply negb_false_iff.
  apply Qle_bool_iff. apply Qlt_le_weak. apply Qnot_le_lt.
  intros Hle. apply Qle_bool_iff in Hle. congruence.
Qed.

Lemma numberOrZero_number (n : option number) :
  LLMExtractor.numberOrZero n <> NotANumber.
Proof.
  destruct n as [[q| | |]|]; simpl; try discriminate.
  destruct (negb (Qeq_bool q 0)); discriminate.
Qed.

Lemma extractFromContent_answer (content instructions url : string)
    (w : World) (c : Calls) :
  exists result,
    LLMExtractor.extractFromContent content instructions url w c
    = (Returned result,
       {| scrapeCalls := scrapeCalls c; objectCalls := S (objectCalls c);
          textCalls := textCalls c; clockCalls := clockCalls c |})
    /\ LLMExtractor.confidence result <> NotANumber
    /\ (forall e, objectAnswer w (objectCalls c) = Threw e ->
          result = {| LLMExtractor.success := false;
                      LLMExtractor.data := [];
                      LLMExtractor.confidence := Finite 0;
                      LLMExtractor.explanation := "LLM extraction failed";
                      LLMExtractor.errors :=
                        Some [messageOr e "Unknown LLM error"] |})
    /\ (forall object, objectAnswer w (objectCalls c) = Returned object ->
          LLMExtractor.success result = true
          /\ LLMExtractor.data result = orElse (extractedData object) []).
Proof.
  unfold LLMExtractor.extractFromContent, tryCatch, bind, generateObject, ret.
  destruct (objectAnswer w (objectCalls c)) as [object|e]; eexists;
    (split; [reflexivity|]); simpl.
  - split; [apply numberOrZero_number|]. split.
    + intros e [=].
    + intros object' [= <-]. now split.
  - split; [discriminate|]. split.
    + intros e' [= <-]. reflexivity.
    + intros object [=].
Qed.

Lemma analyzeAndCleanContent_answer (content url : string) (w : World)
    (c : Calls) :
  exists cleaned,
    LLMExtractor.analyzeAndCleanContent content url w c
    = (Returned cleaned,
       {| scrapeCalls := scrapeCalls c; objectCalls := objectCalls c;
          textCalls := S (textCalls c); clockCalls := clockCalls c |}).
Proof.
  unfold LLMExtractor.analyzeAndCleanContent, tryCatch, generateText, ret.
  destruct (textAnswer w (textCalls c)); eexists; reflexivity.
Qed.

(** X4.  Extraction with fallback never throws.  It asks for a second extraction
    on cleaned content only when the first has a confidence below 0.5, the
    result is never less confident than the first extraction, and when the
    first is confident enough it is the result and no further call is
    made.  The confidence reported is always a number. *)
Theorem extractWithFallback_keeps_better (content instructions url : string)
    (w : World) (c : Calls) :
  exists primary c1 result c',
    LLMExtractor.extractFromContent content instructions url w c
    = (Returned primary, c1)
    /\ LLMExtractor.extractWithFallback content instructions url w c
       = (Returned result, c')
    /\ Num.ltb (LLMExtractor.confidence result) (LLMExtractor.confidence primary)
       = false
    /\ LLMExtractor.confidence result <> NotANumber
    /\ (Num.ltb (LLMExtractor.confidence primary) (Finite (1 # 2)) = false ->
        result = primary /\ c' = c1)
    /\ (Num.ltb (LLMExtractor.confidence primary) (Finite (1 # 2)) = true ->
        objectCalls c' = 2 + objectCalls c /\ textCalls c' = 1 + textCalls c)
    /\ scrapeCalls c' = scrapeCalls c.
Proof.
  destruct (extractFromContent_answer content instructions url w c)
    as [primary [Hprimary [Hnum _]]].
  unfold LLMExtractor.extractWithFallback, bind at 1. rewrite Hprimary.
  exists primary. eexists.
  destruct (Num.ltb (LLMExtractor.confidence primary) (Finite (1 # 2))) eqn:Hlow.
  - unfold bind at 1.
    destruct (analyzeAndCleanContent_answer content url w
                {| scrapeCalls := scrapeCalls c; objectCalls := S (objectCalls c);
                   textCalls := textCalls c; clockCalls := clockCalls c |})
      as [cleaned Hclean].
    rewrite Hclean. cbn [textCalls scrapeCalls objectCalls clockCalls].
    unfold bind at 1.
    destruct (extractFromContent_answer cleaned instructions url w
                {| scrapeCalls := scrapeCalls c; objectCalls := S (objectCalls c);
                   textCalls := S (textCalls c); clockCalls := clockCalls c |})
      as [fallback [Hfallback [Hnum' _]]].
    rewrite Hfallback. cbn [textCalls scrapeCalls objectCalls clockCalls].
    destruct (Num.gtb (LLMExtractor.confidence fallback)
                (LLMExtractor.confidence primary)) eqn:Hbetter;
      unfold ret; eexists; eexists;
      (split; [reflexivity|]); (split; [reflexivity|]); simpl.
    + split; [now apply ltb_asym|]. split; [exact Hnum'|].
      split; [discriminate|]. split; [now split | reflexivity].
    + split; [apply ltb_irrefl|]. split; [exact Hnum|].
      split; [discriminate|]. split; [now split | reflexivity].
  - unfold ret. eexists. eexists.
    split; [reflexivity|]. split; [reflexivity|].
    split; [apply ltb_irrefl|]. split; [exact Hnum|].
    split; [now split|]. split; [discriminate | reflexivity].
Qed.

Lemma extractWithFallback_service_down (content instructions url : string)
    (w : World) (c : Calls) :
  objectServiceDown w ->
  exists e c',
    LLMExtractor.extractWithFallback content instructions url w c
    = (Returned {| LLMExtractor.success := false;
                   LLMExtractor.data := [];
                   LLMExtractor.confidence := Finite 0;
                   LLMExtractor.explanation := "LLM extraction failed";
                   LLMExtractor.errors := Some [messageOr e "Unknown LLM error"] |},
       c').
Proof.
  intros Hdown.
  destruct (extractFromContent_answer content instructions url w c)
    as [primary [Hprimary [_ [Hthrows _]]]].
  destruct (Hdown (objectCalls c)) as [e He].
  specialize (Hthrows e He). subst primary.
  unfold LLMExtractor.extractWithFallback, bind at 1. rewrite Hprimary.
  cbn [LLMExtractor.confidence]. change (Num.ltb (Finite 0) (Finite (1 # 2))) with true.
  cbv iota. unfold bind at 1.
  destruct (analyzeAndCleanContent_answer content url w
              {| scrapeCalls := scrapeCalls c; objectCalls := S (objectCalls c);
                 textCalls := textCalls c; clockCalls := clockCalls c |})
    as [cleaned Hclean].
  rewrite Hclean. unfold bind at 1.
  match goal with
  | |- context [LLMExtractor.extractFromContent cleaned instructions url w ?c2] =>
      destruct (extractFromContent_answer cleaned instructions url w c2)
        as [fallback [Hfallback [_ [Hthrows' _]]]];
      destruct (Hdown (objectCalls c2)) as [e' He'];
      specialize (Hthrows' e' He'); subst fallback; rewrite Hfallback
  end.
  cbn [LLMExtractor.confidence].
  change (Num.gtb (Finite 0) (Finite 0)) with false. cbv iota.
  unfold ret. eexists. eexists. reflexivity.
Qed.

(** X5.  When the completion service is down but the page can be fetched, the
    hybrid path still answers with a result tagged [hybrid]: its fields are
    the parser's fields, the provenance lists no LLM key, and nothing
    signals the failure of the model. *)
Theorem hybridExtraction_llm_down (url : string) (parserResult : ParsedContent)
    (instructions : string) (w : World) (c : Calls) (response : ScrapeResponse) :
  scrapeAnswer w (scrapeCalls c) = Returned response ->
  objectServiceDown w ->
  exists result c',
    hybridExtraction url parserResult instructions w c = (Returned result, c')
    /\ extractionSource (metadata result) = hybrid
    /\ (forall k, k <> "_extraction_sources" ->
          Object.own (content result) k = Object.own (data parserResult) k)
    /\ sourcesOf (content result) "llm" = []
    /\ sourcesOf (content result) "hybrid" = Object.keys (data parserResult).
Proof.
  intros Hfetch Hdown.
  unfold hybridExtraction, tryCatch, bind at 1, scrape. rewrite Hfetch.
  unfold bind at 1.
  match goal with
  | |- context [LLMExtractor.extractWithFallback ?x instructions url w ?c1] =>
      destruct (extractWithFallback_service_down x instructions url w c1 Hdown)
        as [e [c2 Hllm]]; rewrite Hllm
  end.
  cbn [LLMExtractor.data]. unfold bind.
  destruct (generateExtractionSummary_neverThrows
              (mergeResults (data parserResult) []) instructions url w c2)
    as [summary [c3 Hsummary]].
  rewrite Hsummary. unfold ret. eexists. eexists.
  split; [reflexivity|]. cbn [content metadata extractionSource].
  split; [reflexivity|]. unfold mergeResults, mergeFields, extractionSources.
  cbn [fold_left Object.entries Object.spread]. split; [|split].
  - intros k Hk. rewrite own_set.
    destruct (String.eqb_spec k "_extraction_sources");
      [contradiction | reflexivity].
  - now apply sourcesOf_set.
  - now apply sourcesOf_set.
Qed.

Lemma hybridExtraction_llm_down_witness :
  exists result c',
    hybridExtraction "https://shop.example/item"
      {| success := true;
         data := [("title", VString "Widget Pro")];
         confidence := Finite (4 # 5);
         htmlContext := EmptyString;
         errors := None |}
      "get the reviews" (fetchOnlyWorld productPage) noCalls
    = (Returned result, c')
    /\ extractionSource (metadata result) = hybrid
    /\ sourcesOf (content result) "hybrid" = ["title"].
Proof.
  destruct (hybridExtraction_llm_down "https://shop.example/item"
              {| success := true;
                 data := [("title", VString "Widget Pro")];
                 confidence := Finite (4 # 5);
                 htmlContext := EmptyString;
                 errors := None |}
              "get the reviews" (fetchOnlyWorld productPage) noCalls productPage)
    as [result [c' [Hrun [Hsource [_ [_ Hhybrid]]]]]].
  - reflexivity.
  - intros n. eexists. reflexivity.
  - exists result, c'. repeat split; assumption.
Defined.

(** X6.  When the completion service is down but the page can be fetched, the
    LLM-only path does not throw: it answers with an empty result tagged
    [llm], and [processUrl] hands that result on, so the URL is not
    reported as failed. *)
Theorem llmOnlyExtraction_llm_down (url : string) (job : ScrapingJob)
    (w : World) (c c1 : Calls) (parserResult : ParsedContent)
    (response : ScrapeResponse) :
  extractFromUrl url None w c = (Returned parserResult, c1) ->
  branchOf parserResult job = LLMOnlyBranch ->
  scrapeAnswer w (scrapeCalls c1) = Returned response ->
  objectServiceDown w ->
  exists c',
    processUrl url job w c
    = (Returned {| url := url;
                   content := [];
                   metadata :=
                     {| extractionSource := llm;
                        metaHtmlContext := None;
                        explanation := Some "LLM extraction failed" |} |},
       c').
Proof.
  intros Hparse Hbranch Hfetch Hdown.
  rewrite (processUrl_branches _ _ _ _ _ _ Hparse), Hbranch.
  cbv beta iota delta [tryCatch llmOnlyExtraction bind scrape].
  rewrite Hfetch. cbv beta iota zeta.
  match goal with
  | |- context [LLMExtractor.extractWithFallback ?x ?i url w ?c2] =>
      destruct (extractWithFallback_service_down x i url w c2 Hdown)
        as [e [c3 Hllm]]; rewrite Hllm
  end.
  unfold ret. eexists. reflexivity.
Qed.

Lemma llmOnlyExtraction_llm_down_witness :
  exists c',
    processUrl "https://hotel.example/rooms"
      {| id := "job_2"; userId := "u1"; jobName := "demo";
         targetUrls := ["https://hotel.example/rooms"];
         extractionInstructions := None |}
      (fetchOnlyWorld
         {| markdown := "Welcome";
            pageMetadata := {| metaTitle := None; metaDescription := None |};
            extract := {| text := "Welcome"; headings := None;
                          links := None; images := None |};
            pageLinks := [] |})
      noCalls
    = (Returned {| url := "https://hotel.example/rooms";
                   content := [];
                   metadata :=
                     {| extractionSource := llm;
                        metaHtmlContext := None;
                        explanation := Some "LLM extraction failed" |} |},
       c').
Proof.
  eapply llmOnlyExtraction_llm_down.
  - reflexivity.
  - reflexivity.
  - reflexivity.
  - intros n. eexists. reflexivity.
Defined.

(** ** The per-URL pipeline *)

Section CallCounts.

Lemma callsWithin_trans (s1 o1 t1 s2 o2 t2 : nat) (c c1 c2 : Calls) :
  callsWithin s1 o1 t1 c c1 ->
  callsWithin s2 o2 t2 c1 c2 ->
  callsWithin (s1 + s2) (o1 + o2) (t1 + t2) c c2.
Proof. unfold callsWithin. lia. Qed.

Lemma atMost_weaken {A : Type} (s o t s' o' t' : nat) (m : Run A) :
  s <= s' -> o <= o' -> t <= t' -> atMost s o t m -> atMost s' o' t' m.
Proof.
  intros Hs Ho Ht Hm w c. specialize (Hm w c). unfold callsWithin in *. lia.
Qed.

Lemma atMost_ret {A : Type} (a : A) : atMost 0 0 0 (ret a).
Proof. intros w c. unfold callsWithin. simpl. lia. Qed.

Lemma atMost_throw {A : Type} (e : Thrown) : atMost 0 0 0 (@throw A e).
Proof. intros w c. unfold callsWithin. simpl. lia. Qed.

Lemma atMost_bind {A B : Type} (s1 o1 t1 s2 o2 t2 : nat) (m : Run A)
    (k : A -> Run B) :
  atMost s1 o1 t1 m -> (forall a, atMost s2 o2 t2 (k a)) ->
  atMost (s1 + s2) (o1 + o2) (t1 + t2) (bind m k).
Proof.
  intros Hm Hk w c. unfold bind. specialize (Hm w c).
  destruct (m w c) as [[a|e] c1]; simpl in Hm.
  - eapply callsWithin_trans; [exact Hm | apply Hk].
  - simpl. unfold callsWithin in *. lia.
Qed.

Lemma atMost_tryCatch {A : Type} (s1 o1 t1 s2 o2 t2 : nat) (m : Run A)
    (handler : Thrown -> Run A) :
  atMost s1 o1 t1 m -> (forall e, atMost s2 o2 t2 (handler e)) ->
  atMost (s1 + s2) (o1 + o2) (t1 + t2) (tryCatch m handler).
Proof.
  intros Hm Hh w c. unfold tryCatch. specialize (Hm w c).
  destruct (m w c) as [[a|e] c1]; simpl in Hm.
  - simpl. unfold callsWithin in *. lia.
  - eapply callsWithin_trans; [exact Hm | apply Hh].
Qed.

Lemma atMost_scrape (url : string) : atMost 1 0 0 (scrape url).
Proof. intros w c. unfold callsWithin. simpl. lia. Qed.

Lemma atMost_generateObject : atMost 0 1 0 generateObject.
Proof. intros w c. unfold callsWithin. simpl. lia. Qed.

Lemma atMost_generateText : atMost 0 0 1 generateText.
Proof. intros w c. unfold callsWithin. simpl. lia. Qed.

Lemma atMost_isoNow : atMost 0 0 0 isoNow.
Proof. intros w c. unfold callsWithin. simpl. lia. Qed.

Lemma atMost_extractFromUrl (url : string) (customRules : option (list ParserRule)) :
  atMost 1 0 0 (extractFromUrl url customRules).
Proof.
  unfold extractFromUrl.
  apply (atMost_tryCatch 1 0 0 0 0 0); [|intros e; apply atMost_ret].
  apply (atMost_bind 1 0 0 0 0 0); [apply atMost_scrape|].
  intros response. cbv zeta.
  apply (atMost_bind 0 0 0 0 0 0); [apply atMost_isoNow|].
  intros now. apply atMost_ret.
Qed.

Lemma atMost_extractFromContent (content instructions url : string) :
  atMost 0 1 0 (LLMExtractor.extractFromContent content instructions url).
Proof.
  unfold LLMExtractor.extractFromContent.
  apply (atMost_tryCatch 0 1 0 0 0 0); [|intros e; apply atMost_ret].
  apply (atMost_bind 0 1 0 0 0 0); [apply atMost_generateObject|].
  intros object. apply atMost_ret.
Qed.

Lemma atMost_extractWithFallback (content instructions url : string) :
  atMost 0 2 1 (LLMExtractor.extractWithFallback content instructions url).
Proof.
  unfold LLMExtractor.extractWithFallback.
  apply (atMost_bind 0 1 0 0 1 1); [apply atMost_extractFromContent|].
  intros result. destruct (Num.ltb _ _).
  - apply (atMost_bind 0 0 1 0 1 0).
    + unfold LLMExtractor.analyzeAndCleanContent.
      apply (atMost_tryCatch 0 0 1 0 0 0);
        [apply atMost_generateText | intros e; apply atMost_ret].
    + intros cleaned.
      apply (atMost_bind 0 1 0 0 0 0); [apply atMost_extractFromContent|].
      intros fallback. destruct (Num.gtb _ _); apply atMost_ret.
  - apply (atMost_weaken 0 0 0); [lia..|]. apply atMost_ret.
Qed.

Lemma atMost_generateExtractionSummary (results : Obj) (instructions url : string) :
  atMost 0 0 1 (LLMExtractor.generateExtractionSummary results instructions url).
Proof.
  unfold LLMExtractor.generateExtractionSummary.
  apply (atMost_tryCatch 0 0 1 0 0 0);
    [apply atMost_generateText | intros e; apply atMost_ret].
Qed.

Lemma atMost_hybridExtraction (url : string) (parserResult : ParsedContent)
    (instructions : string) :
  atMost 1 2 2 (hybridExtraction url parserResult instructions).
Proof.
  unfold hybridExtraction.
  apply (atMost_tryCatch 1 2 2 0 0 0); [|intros e; apply atMost_ret].
  apply (atMost_bind 1 0 0 0 2 2); [apply atMost_scrape|].
  intros response.
  apply (atMost_bind 0 2 1 0 0 1); [apply atMost_extractWithFallback|].
  intros llmResult. cbv zeta.
  apply (atMost_bind 0 0 1 0 0 0); [apply atMost_generateExtractionSummary|].
  intros summary. apply atMost_ret.
Qed.

Lemma atMost_llmOnlyExtraction (url instructions : string) :
  atMost 1 2 1 (llmOnlyExtraction url instructions).
Proof.
  unfold llmOnlyExtraction.
  apply (atMost_tryCatch 1 2 1 0 0 0); [|intros e; apply atMost_throw].
  apply (atMost_bind 1 0 0 0 2 1); [apply atMost_scrape|].
  intros response. cbv zeta.
  apply (atMost_bind 0 2 1 0 0 0); [apply atMost_extractWithFallback|].
  intros llmResult. apply atMost_ret.
Qed.

End CallCounts.

(** X7.  Processing one URL makes at most two fetches, two object completions
    and two text completions, in every world. *)
Theorem processUrl_call_budget (url : string) (job : ScrapingJob) :
  atMost 2 2 2 (processUrl url job).
Proof.
  unfold processUrl.
  apply (atMost_tryCatch 2 2 2 0 0 0); [|intros e; apply atMost_ret].
  apply (atMost_bind 1 0 0 1 2 2); [apply atMost_extractFromUrl|].
  intros parserResult. cbv zeta.
  destruct (_ && _)%bool.
  - apply atMost_hybridExtraction.
  - destruct (_ && _)%bool.
    + apply (atMost_weaken 0 0 0); [lia..|]. apply atMost_ret.
    + apply (atMost_weaken 1 2 1); [lia..|]. apply atMost_llmOnlyExtraction.
Qed.

(** X8.  Processing one URL never throws.  Its result is tagged [failed] only
    when the LLM-only path was taken and its fetch threw; the hybrid path
    gives [hybrid] or [parser], the parser path [parser], and the LLM-only
    path [llm] otherwise. *)
Theorem processUrl_sources (url : string) (job : ScrapingJob) (w : World)
    (c : Calls) :
  exists parserResult c1 result c',
    extractFromUrl url None w c = (Returned parserResult, c1)
    /\ processUrl url job w c = (Returned result, c')
    /\ match branchOf parserResult job with
       | HybridBranch =>
           match scrapeAnswer w (scrapeCalls c1) with
           | Returned _ => extractionSource (metadata result) = hybrid
           | Threw _ => result = parserFallback url parserResult
           end
       | ParserBranch =>
           extractionSource (metadata result) = parser
           /\ content result = data parserResult
           /\ c' = c1
       | LLMOnlyBranch =>
           match scrapeAnswer w (scrapeCalls c1) with
           | Returned _ => extractionSource (metadata result) = llm
           | Threw e => result = failedResult url (llmOnlyError e)
           end
       end.
Proof.
  destruct (extractFromUrl_neverThrows url None w c) as [parserResult [c1 Hparse]].
  exists parserResult, c1.
  rewrite (processUrl_branches _ _ _ _ _ _ Hparse). unfold tryCatch.
  destruct (branchOf parserResult job).
  - destruct (scrapeAnswer w (scrapeCalls c1)) as [response|e] eqn:Hfetch.
    + destruct (hybridExtraction_fetch_returns url parserResult
                  (orElse (extractionInstructions job) EmptyString)
                  w c1 response Hfetch) as [result [c' [Hrun Hsource]]].
      rewrite Hrun. exists result, c'. repeat split; assumption.
    + rewrite (hybridExtraction_fetch_throws _ _ _ _ _ e Hfetch).
      eexists. eexists. repeat split; first [assumption | reflexivity].
  - unfold ret. eexists. eexists.
    repeat split; first [assumption | reflexivity].
  - destruct (scrapeAnswer w (scrapeCalls c1)) as [response|e] eqn:Hfetch.
    + match goal with
      | |- context [llmOnlyExtraction url ?i w c1] =>
          destruct (llmOnlyExtraction_fetch_returns url i w c1 response Hfetch)
            as [result [c' [Hrun Hsource]]]
      end.
      rewrite Hrun. exists result, c'. repeat split; assumption.
    + rewrite (llmOnlyExtraction_fetch_throws _ _ _ _ e Hfetch).
      unfold ret. eexists. eexists.
      repeat split; first [assumption | reflexivity].
Qed.

Lemma noInstructions_parser_branch (parserResult : ParsedContent)
    (job : ScrapingJob) :
  noInstructions (extractionInstructions job) = true ->
  branchOf parserResult job
  = if (success parserResult
        && Num.gtb (confidence parserResult) (Finite (6 # 10)))%bool
    then ParserBranch else LLMOnlyBranch.
Proof.
  intros Hno. unfold branchOf, shouldUseLLM. now rewrite Hno.
Qed.

(** X9.  A job without instructions never reaches the hybrid path: its results
    are tagged [parser], [llm] or [failed].  When its rule-based pass
    succeeds with a confidence above 0.6 the parser's fields are the result
    and no completion is requested. *)
Theorem processUrl_without_instructions (url : string) (job : ScrapingJob)
    (w : World) (c : Calls) :
  noInstructions (extractionInstructions job) = true ->
  exists parserResult c1 result c',
    extractFromUrl url None w c = (Returned parserResult, c1)
    /\ processUrl url job w c = (Returned result, c')
    /\ extractionSource (metadata result) <> hybrid
    /\ (success parserResult = true ->
        Num.gtb (confidence parserResult) (Finite (6 # 10)) = true ->
        extractionSource (metadata result) = parser
        /\ content result = data parserResult
        /\ objectCalls c' = objectCalls c
        /\ textCalls c' = textCalls c
        /\ scrapeCalls c' = S (scrapeCalls c)).
Proof.
  intros Hno.
  destruct (extractFromUrl_neverThrows url None w c) as [parserResult [c1 Hparse]].
  exists parserResult, c1.
  assert (Hcalls : scrapeCalls c1 = S (scrapeCalls c)
                   /\ objectCalls c1 = objectCalls c
                   /\ textCalls c1 = textCalls c).
  { destruct (scrapeAnswer w (scrapeCalls c)) as [response|e] eqn:Hfetch.
    - destruct (extractFromUrl_fetch_returns url None w c response Hfetch)
        as [r [c2 [Hrun [_ Hc]]]].
      rewrite Hparse in Hrun. injection Hrun as _ <-. exact Hc.
    - rewrite (extractFromUrl_fetch_throws url None w c e Hfetch) in Hparse.
      injection Hparse as _ <-. repeat split. }
  rewrite (processUrl_branches _ _ _ _ _ _ Hparse).
  rewrite (noInstructions_parser_branch _ _ Hno). unfold tryCatch.
  destruct (success parserResult
            && Num.gtb (confidence parserResult) (Finite (6 # 10)))%bool eqn:Hgood.
  - unfold ret. eexists. eexists. split; [exact Hparse|]. split; [reflexivity|].
    cbn [metadata extractionSource content]. split; [discriminate|].
    intros _ _. destruct Hcalls as [Hs [Ho Ht]]. repeat split; assumption.
  - destruct (scrapeAnswer w (scrapeCalls c1)) as [response|e] eqn:Hfetch.
    + match goal with
      | |- context [llmOnlyExtraction url ?i w c1] =>
          destruct (llmOnlyExtraction_fetch_returns url i w c1 response Hfetch)
            as [result [c' [Hrun Hsource]]]
      end.
      rewrite Hrun. exists result, c'. split; [exact Hparse|].
      split; [reflexivity|]. split; [congruence|].
      intros Hs Hc. rewrite Hs, Hc in Hgood. discriminate.
    + rewrite (llmOnlyExtraction_fetch_throws _ _ _ _ e Hfetch).
      unfold ret. eexists. eexists. split; [exact Hparse|].
      split; [reflexivity|]. split; [discriminate|].
      intros Hs Hc. rewrite Hs, Hc in Hgood. discriminate.
Qed.

Lemma processUrl_without_instructions_witness :
  exists result c',
    processUrl "https://shop.example/item"
      {| id := "job_3"; userId := "u1"; jobName := "demo";
         targetUrls := ["https://shop.example/item"];
         extractionInstructions := None |}
      (fetchOnlyWorld productPage) noCalls
    = (Returned result, c')
    /\ extractionSource (metadata result) = parser
    /\ objectCalls c' = 0
    /\ textCalls c' = 0.
Proof.
  destruct (processUrl_without_instructions "https://shop.example/item"
              {| id := "job_3"; userId := "u1"; jobName := "demo";
                 targetUrls := ["https://shop.example/item"];
                 extractionInstructions := None |}
              (fetchOnlyWorld productPage) noCalls eq_refl)
    as [parserResult [c1 [result [c' [Hparse [Hrun [_ Hgood]]]]]]].
  injection Hparse as <- <-.
  destruct (Hgood eq_refl eq_refl) as [Hsource [_ [Ho [Ht _]]]].
  exists result, c'. repeat split; assumption.
Defined.

(** ** Pagination *)

Lemma slice_length_nonneg {A : Type} (stop : Z) (xs : list A) :
  (0 <= stop)%Z -> (Z.of_nat (length (slice 0 stop xs)) <= stop)%Z.
Proof.
  intros Hpos. rewrite slice_from_start.
  destruct (Z.ltb_spec stop 0) as [Hneg|_]; [lia|].
  rewrite length_firstn. lia.
Qed.

Lemma slice_incl {A : Type} (stop : Z) (xs : list A) (x : A) :
  In x (slice 0 stop xs) -> In x xs.
Proof.
  intros Hin. destruct (slice_prefix stop xs) as [dropped Hxs].
  rewrite Hxs. apply in_or_app. now left.
Qed.

Lemma paginationLinksOf_sound (settings : ScrapingSettings)
    (response : ScrapeResponse) (link : string) :
  In link (paginationLinksOf settings response) ->
  In link (pageLinks response)
  /\ Pattern.paginationTest (toLowerCase link) = true.
Proof.
  unfold paginationLinksOf. intros Hin. apply slice_incl in Hin.
  now apply filter_In in Hin.
Qed.

(** X10.  Pagination detection never throws and makes exactly one fetch.  Its
    list starts with the URL itself; when the fetch throws that is the whole
    list; every other entry is a link of the fetched page that passes the
    pagination test, in page order; and for a page limit of at least 1 the
    list is no longer than the limit. *)
Theorem handlePagination_bounded (url : string) (maxPages : Z) (w : World)
    (c : Calls) :
  exists more,
    handlePagination url maxPages w c = (Returned (url :: more), fetched c)
    /\ (forall e, scrapeAnswer w (scrapeCalls c) = Threw e -> more = [])
    /\ (forall link, In link more ->
          Pattern.paginationTest (toLowerCase link) = true
          /\ exists response,
               scrapeAnswer w (scrapeCalls c) = Returned response
               /\ In link (pageLinks response))
    /\ ((1 <= maxPages)%Z -> (Z.of_nat (length (url :: more)) <= maxPages)%Z).
Proof.
  unfold handlePagination, scrapeWithBlink, tryCatch, bind, scrape, ret, fetched.
  destruct (scrapeAnswer w (scrapeCalls c)) as [response|e].
  - eexists. split; [reflexivity|]. split; [intros e [=]|]. split.
    + intros link Hin. apply slice_incl in Hin. apply filter_In in Hin.
      split; [tauto|]. exists response. split; [reflexivity | tauto].
    + intros Hmax. cbn [length].
      pose proof (slice_length_nonneg (maxPages - 1)
                    (filter (fun link => Pattern.paginationTest (toLowerCase link))
                       (pageLinks response))) as Hlen.
      lia.
  - exists []. split; [reflexivity|]. split; [reflexivity|]. split.
    + intros link [].
    + simpl. lia.
Qed.

Lemma expandLoop_no_pagination (settings : ScrapingSettings)
    (targetUrls allUrls : list string) (w : World) (c : Calls) :
  flagSet (followPagination settings) = false ->
  expandLoop settings targetUrls allUrls w c
  = (Returned (allUrls ++ targetUrls)%list, c).
Proof.
  intros Hoff. revert allUrls.
  induction targetUrls as [|url rest IH]; intros allUrls.
  - simpl. unfold ret. now rewrite app_nil_r.
  - cbn [expandLoop]. unfold bind. rewrite expandUrl_contribution, Hoff.
    rewrite IH. unfold contribution. rewrite Hoff. now rewrite <- app_assoc.
Qed.

Lemma expandUrls_without_pagination_value (settings : ScrapingSettings)
    (targetUrls : list string) (w : World) (c : Calls) :
  flagSet (followPagination settings) = false ->
  expandUrls settings targetUrls w c
  = (Returned (slice 0 (orElseZ (maxPages settings) 50)
                 (firstOccurrences targetUrls)), c).
Proof.
  intros Hoff. unfold expandUrls, bind.
  rewrite (expandLoop_no_pagination settings targetUrls [] w c Hoff).
  unfold ret. cbn [app]. now rewrite unique_firstOccurrences.
Qed.

(** X11.  With pagination not followed, URL expansion calls no service at
    all: it returns the target URLs, each at its first occurrence, cut at
    the page limit, so the result has no duplicates and holds target URLs
    only. *)
Theorem expandUrls_without_pagination (settings : ScrapingSettings)
    (targetUrls : list string) (w : World) (c : Calls) :
  flagSet (followPagination settings) = false ->
  exists urls,
    expandUrls settings targetUrls w c = (Returned urls, c)
    /\ urls = slice 0 (orElseZ (maxPages settings) 50)
                (firstOccurrences targetUrls)
    /\ NoDup urls
    /\ (forall u, In u urls -> In u targetUrls).
Proof.
  intros Hoff. eexists. split; [|split; [reflexivity|split]].
  - now apply expandUrls_without_pagination_value.
  - destruct (slice_prefix (orElseZ (maxPages settings) 50)
                (firstOccurrences targetUrls)) as [dropped Hd].
    pose proof (NoDup_firstOccurrences targetUrls) as Hnd.
    rewrite Hd in Hnd. now apply NoDup_app_remove_r in Hnd.
  - intros u Hin. apply slice_incl in Hin.
    exact (proj1 (In_firstOccurrences _ _) Hin).
Qed.

Lemma expandUrls_without_pagination_witness :
  exists urls,
    expandUrls
      (constructorSettings
         {| argMaxPages := Present (Some 2%Z); argDelay := Absent;
            argTimeout := Absent; argFollowPagination := Absent;
            argEnableJavaScript := Absent |})
      ["https://a.example/"; "https://b.example/"; "https://a.example/";
       "https://c.example/"]
      deadWorld noCalls
    = (Returned urls, noCalls)
    /\ urls = ["https://a.example/"; "https://b.example/"].
Proof.
  destruct (expandUrls_without_pagination
              (constructorSettings
                 {| argMaxPages := Present (Some 2%Z); argDelay := Absent;
                    argTimeout := Absent; argFollowPagination := Absent;
                    argEnableJavaScript := Absent |})
              ["https://a.example/"; "https://b.example/"; "https://a.example/";
               "https://c.example/"]
              deadWorld noCalls eq_refl) as [urls [Hrun [Hurls _]]].
  exists urls. split; [exact Hrun | exact Hurls].
Defined.

Lemma expandLoop_calls (settings : ScrapingSettings)
    (targetUrls allUrls : list string) (w : World) (c : Calls) :
  flagSet (followPagination settings) = true ->
  exists urls c',
    expandLoop settings targetUrls allUrls w c = (Returned urls, c')
    /\ scrapeCalls c' = scrapeCalls c + length targetUrls
    /\ objectCalls c' = objectCalls c
    /\ textCalls c' = textCalls c.
Proof.
  intros Hon. revert allUrls c.
  induction targetUrls as [|url rest IH]; intros allUrls c.
  - exists allUrls, c. simpl. repeat split; lia.
  - cbn [expandLoop]. unfold bind. rewrite expandUrl_contribution, Hon.
    destruct (IH (allUrls ++ contribution settings url
                                 (scrapeAnswer w (scrapeCalls c)))%list
                 (fetched c)) as [urls [c' [Hrun [Hs [Ho Ht]]]]].
    exists urls, c'. rewrite Hrun. simpl in *. repeat split; lia.
Qed.

Lemma contributions_origin (settings : ScrapingSettings)
    (answers : nat -> Outcome ScrapeResponse) (n : nat)
    (targetUrls : list string) (u : string) :
  In u (contributions settings answers n targetUrls) ->
  In u targetUrls
  \/ exists k response,
       answers k = Returned response
       /\ In u (pageLinks response)
       /\ Pattern.paginationTest (toLowerCase u) = true.
Proof.
  revert n. induction targetUrls as [|url rest IH]; intros n;
    cbn [contributions]; [intros []|].
  rewrite in_app_iff. unfold contribution. cbn [In].
  intros [[<-|Hin]|Hin].
  - left. now left.
  - right. destruct (flagSet (followPagination settings)); [|destruct Hin].
    destruct (answers n) as [response|e] eqn:Hn; [|destruct Hin].
    apply paginationLinksOf_sound in Hin. exists n, response. tauto.
  - apply IH in Hin. destruct Hin as [Hin|Hin]; [left; now right | now right].
Qed.

(** X12.  With pagination followed, URL expansion makes exactly one fetch per
    target URL and no completion request, and every URL it returns is a
    target URL or a link of a fetched page that passes the pagination
    test. *)
Theorem expandUrls_with_pagination (settings : ScrapingSettings)
    (targetUrls : list string) (w : World) (c : Calls) :
  flagSet (followPagination settings) = true ->
  exists urls c',
    expandUrls settings targetUrls w c = (Returned urls, c')
    /\ scrapeCalls c' = scrapeCalls c + length targetUrls
    /\ objectCalls c' = objectCalls c
    /\ textCalls c' = textCalls c
    /\ (forall u, In u urls ->
          In u targetUrls
          \/ exists k response,
               scrapeAnswer w k = Returned response
               /\ In u (pageLinks response)
               /\ Pattern.paginationTest (toLowerCase u) = true).
Proof.
  intros Hon.
  destruct (expandLoop_calls settings targetUrls [] w c Hon)
    as [all [c' [Hrun [Hs [Ho Ht]]]]].
  destruct (expandLoop_contributions settings targetUrls [] w c) as [c2 Hall].
  rewrite Hrun in Hall. cbn [app] in Hall.
  assert (Hall' : all = contributions settings (scrapeAnswer w) (scrapeCalls c)
                          targetUrls) by congruence.
  clear Hall. rename Hall' into Hall.
  unfold expandUrls, bind. rewrite Hrun. unfold ret.
  eexists. eexists. split; [reflexivity|].
  split; [exact Hs|]. split; [exact Ho|]. split; [exact Ht|].
  intros u Hin. apply slice_incl in Hin.
  rewrite unique_firstOccurrences in Hin.
  apply (proj1 (In_firstOccurrences _ _)) in Hin.
  rewrite Hall in Hin. now apply contributions_origin in Hin.
Qed.

Lemma expandUrls_with_pagination_witness :
  exists urls c',
    expandUrls
      (constructorSettings
         {| argMaxPages := Absent; argDelay := Absent; argTimeout := Absent;
            argFollowPagination := Present (Some true);
            argEnableJavaScript := Absent |})
      ["https://shop.example/list"] (fetchOnlyWorld productPage) noCalls
    = (Returned urls, c')
    /\ scrapeCalls c' = 1
    /\ urls = ["https://shop.example/list"; "https://shop.example/list?page=2"].
Proof.
  destruct (expandUrls_with_pagination
              (constructorSettings
                 {| argMaxPages := Absent; argDelay := Absent; argTimeout := Absent;
                    argFollowPagination := Present (Some true);
                    argEnableJavaScript := Absent |})
              ["https://shop.example/list"] (fetchOnlyWorld productPage) noCalls
              eq_refl) as [urls [c' [Hrun [Hs _]]]].
  exists urls, c'. split; [exact Hrun|]. split; [exact Hs|].
  injection Hrun as <- _. reflexivity.
Defined.

(** ** Prices *)

Lemma span_append (p : ascii -> bool) (s a b : string) :
  Pattern.span p s = (a, b) -> s = a ++ b.
Proof.
  revert a b. induction s as [|c s IH]; intros a b; simpl.
  - now intros [= <- <-].
  - destruct (p c).
    + destruct (Pattern.span p s) as [a' b'] eqn:E. intros [= <- <-].
      simpl. f_equal. now apply IH.
    + now intros [= <- <-].
Qed.

Lemma span_all (p : ascii -> bool) (s a b : string) (c : ascii) :
  Pattern.span p s = (a, b) -> In c (list_ascii_of_string a) -> p c = true.
Proof.
  revert a b. induction s as [|d s IH]; intros a b; simpl.
  - intros [= <- <-] [].
  - destruct (p d) eqn:Hd.
    + destruct (Pattern.span p s) as [a' b'] eqn:E. intros [= <- <-].
      simpl. intros [<-|Hin]; [exact Hd | now apply (IH a' b')].
    + intros [= <- <-] [].
Qed.

Lemma optDot_append (s d r : string) : Pattern.optDot s = (d, r) -> s = d ++ r.
Proof.
  unfold Pattern.optDot. destruct s as [|c s]; [now intros [= <- <-]|].
  destruct (Ascii.eqb c "."); now intros [= <- <-].
Qed.

Lemma optDot_chars (s d r : string) (c : ascii) :
  Pattern.optDot s = (d, r) -> In c (list_ascii_of_string d) -> c = "."%char.
Proof.
  unfold Pattern.optDot. destruct s as [|x s]; [now intros [= <- <-] []|].
  destruct (Ascii.eqb_spec x "."); intros [= <- <-]; simpl; [|tauto].
  intros [<-|[]]. assumption.
Qed.

Lemma append_assoc (a b c : string) : (a ++ b) ++ c = a ++ b ++ c.
Proof. induction a as [|x a IH]; simpl; [reflexivity | now rewrite IH]. Qed.

Lemma list_ascii_append (a b : string) :
  list_ascii_of_string (a ++ b)
  = (list_ascii_of_string a ++ list_ascii_of_string b)%list.
Proof. induction a as [|x a IH]; simpl; [reflexivity | now rewrite IH]. Qed.

Lemma isDigit_not_dollar (c : ascii) :
  (Pattern.isPriceChar c || Ascii.eqb c ".")%bool = true -> c <> "$"%char.
Proof. intros H ->. discriminate H. Qed.

(** What the price pattern matches at the start of a string: a prefix of
    it, price-shaped, with no dollar sign after the first character. *)
Lemma priceAt_prefix (s m : string) :
  Pattern.priceAt s = Some m ->
  (exists rest, s = m ++ rest)
  /\ priceShaped m
  /\ exists tail, m = String "$" tail
       /\ forall c, In c (list_ascii_of_string tail) -> c <> "$"%char.
Proof.
  unfold Pattern.priceAt. destruct s as [|c r]; [discriminate|].
  destruct (Ascii.eqb_spec c "$") as [->|]; [|discriminate].
  destruct (Pattern.span Pattern.isPriceChar r) as [a r1] eqn:Ha.
  destruct (nonEmpty a) eqn:Hne; [|discriminate].
  destruct (Pattern.optDot r1) as [dot r2] eqn:Hdot.
  destruct (Pattern.span Pattern.isDigit r2) as [b r3] eqn:Hb.
  intros [= <-].
  apply span_append in Ha as Hra. apply optDot_append in Hdot as Hr1.
  apply span_append in Hb as Hr2. split; [|split].
  - exists r3. simpl. f_equal. subst r r1 r2. now rewrite !append_assoc.
  - destruct a as [|x a]; [discriminate|]. exists x, (a ++ dot ++ b).
    split; [reflexivity|]. apply (span_all _ _ _ _ x Ha). now left.
  - exists (a ++ dot ++ b). split; [reflexivity|].
    intros x Hin. rewrite !list_ascii_append, !in_app_iff in Hin.
    apply isDigit_not_dollar. destruct Hin as [Hin|[Hin|Hin]].
    + now rewrite (span_all _ _ _ _ x Ha Hin).
    + rewrite (optDot_chars _ _ _ x Hdot Hin). reflexivity.
    + unfold Pattern.isPriceChar. now rewrite (span_all _ _ _ _ x Hb Hin).
Qed.

Lemma occursIn_tail (m s : string) (c : ascii) :
  occursIn m s -> occursIn m (String c s).
Proof.
  intros [before [after ->]]. now exists (String c before), after.
Qed.

Lemma priceMatches_sound (skip : nat) (s m : string) :
  In m (Pattern.priceMatches skip s) -> priceShaped m /\ occursIn m s.
Proof.
  revert skip. induction s as [|c s IH]; intros skip; [intros []|].
  cbn [Pattern.priceMatches]. destruct skip as [|k].
  - destruct (Pattern.priceAt (String c s)) as [m0|] eqn:E.
    + intros [<-|Hin].
      * apply priceAt_prefix in E. destruct E as [[rest Hrest] [Hshape _]].
        split; [exact Hshape|]. exists EmptyString, rest. exact Hrest.
      * apply IH in Hin. split; [tauto|]. apply occursIn_tail. tauto.
    + intros Hin. apply IH in Hin. split; [tauto|]. apply occursIn_tail. tauto.
  - intros Hin. apply IH in Hin. split; [tauto|]. apply occursIn_tail. tauto.
Qed.

Lemma priceMatches_complete (before after : string) (c : ascii) (skip : nat) :
  Pattern.isPriceChar c = true ->
  noDollarAhead skip (before ++ String "$" (String c after)) ->
  Pattern.priceMatches skip (before ++ String "$" (String c after)) <> [].
Proof.
  intros Hc. revert skip. induction before as [|b before IH]; intros skip Hskip.
  - cbn [append Pattern.priceMatches]. destruct skip as [|k].
    + unfold Pattern.priceAt. cbn [Ascii.eqb Bool.eqb Pattern.span].
      rewrite Hc.
      destruct (Pattern.span Pattern.isPriceChar after) as [a r1].
      cbn [nonEmpty]. destruct (Pattern.optDot r1) as [dot r2].
      destruct (Pattern.span Pattern.isDigit r2) as [d r3]. discriminate.
    + simpl in Hskip. destruct Hskip as [Hne _]. now contradiction Hne.
  - cbn [append Pattern.priceMatches]. destruct skip as [|k].
    + destruct (Pattern.priceAt _) as [m|] eqn:E; [discriminate|].
      apply IH. exact I.
    + apply IH. simpl in Hskip. tauto.
Qed.

Lemma noDollarAhead_tail (tail rest : string) :
  (forall c, In c (list_ascii_of_string tail) -> c <> "$"%char) ->
  noDollarAhead (String.length tail) (tail ++ rest).
Proof.
  induction tail as [|x tail IH]; intros Hclean; [exact I|].
  cbn [String.length append noDollarAhead]. split.
  - apply Hclean. now left.
  - apply IH. intros c Hin. apply Hclean. now right.
Qed.

Lemma priceAt_needs_dollar (c : ascii) (s : string) :
  c <> "$"%char -> Pattern.priceAt (String c s) = None.
Proof.
  intros Hc. unfold Pattern.priceAt.
  destruct (Ascii.eqb_spec c "$"); [contradiction | reflexivity].
Qed.

(** A match has its only dollar sign in front, so no other match begins
    inside it: the matches that a scan collects are the matches at all
    positions. *)
Lemma priceMatches_occurrences (skip : nat) (s : string) :
  noDollarAhead skip s -> Pattern.priceMatches skip s = priceOccurrences s.
Proof.
  unfold priceOccurrences. revert skip.
  induction s as [|c s IH]; intros skip Hskip; [reflexivity|].
  cbn [Pattern.priceMatches suffixes flat_map]. destruct skip as [|k].
  - destruct (Pattern.priceAt (String c s)) as [m|] eqn:E.
    + cbn [app]. f_equal. apply IH.
      apply priceAt_prefix in E.
      destruct E as [[rest Hrest] [_ [tail [-> Hclean]]]].
      cbn [append] in Hrest. injection Hrest as _ ->.
      replace (String.length (String "$" tail) - 1) with (String.length tail)
        by (cbn [String.length]; lia).
      now apply noDollarAhead_tail.
    + cbn [app]. now apply IH.
  - cbn [noDollarAhead] in Hskip. destruct Hskip as [Hc Hskip].
    rewrite (priceAt_needs_dollar c s Hc). cbn [app]. now apply IH.
Qed.

(** X13.  Price extraction finds nothing exactly when the text has no dollar
    sign followed by a digit or a comma.  Every price it returns is a
    substring of the text that begins with such a pair.  With [multiple] it
    returns the match of the price pattern at every position of the text
    that has one, in text order, and otherwise the first of them. *)
Theorem extractPrices_sound (text : string) :
  (forall multiple,
      extractPrices text multiple = VNull
      <-> ~ exists c, Pattern.isPriceChar c = true
                     /\ occursIn (String "$" (String c EmptyString)) text)
  /\ (forall m, extractPrices text false = VString m ->
                priceShaped m /\ occursIn m text)
  /\ (forall items, extractPrices text true = VArray items ->
        (forall v, In v items ->
           exists m, v = VString m /\ priceShaped m /\ occursIn m text)
        /\ exists first rest,
             items = VString first :: rest
             /\ extractPrices text false = VString first)
  /\ match priceOccurrences text with
     | [] => forall multiple, extractPrices text multiple = VNull
     | first :: rest =>
         extractPrices text true = strings (first :: rest)
         /\ extractPrices text false = VString first
     end.
Proof.
  unfold extractPrices. split; [|split; [|split]].
  - intros multiple. split.
    + destruct (Pattern.priceMatches 0 text) eqn:E.
      * intros _ [c [Hc [before [after Hocc]]]].
        apply (priceMatches_complete before after c 0 Hc); [exact I|].
        simpl in Hocc. now rewrite <- Hocc.
      * destruct multiple; discriminate.
    + intros Hnone. destruct (Pattern.priceMatches 0 text) as [|m l] eqn:E;
        [reflexivity|].
      exfalso. apply Hnone.
      assert (Hin : In m (Pattern.priceMatches 0 text)) by (rewrite E; now left).
      apply priceMatches_sound in Hin.
      destruct Hin as [[c [rest [-> Hc]]] [before [after ->]]].
      exists c. split; [exact Hc|]. exists before, (rest ++ after). 
      simpl. reflexivity.
  - intros m. destruct (Pattern.priceMatches 0 text) as [|m0 l] eqn:E;
      [discriminate|].
    intros [= <-]. apply (priceMatches_sound 0). rewrite E. now left.
  - intros items. destruct (Pattern.priceMatches 0 text) as [|m0 l] eqn:E;
      [discriminate|].
    intros [= <-]. split.
    + intros v Hin.
      change (VString m0 :: map VString l) with (map VString (m0 :: l)) in Hin.
      apply in_map_iff in Hin. destruct Hin as [m [<- Hin]].
      exists m. split; [reflexivity|]. apply (priceMatches_sound 0).
      now rewrite E.
    + exists m0, (map VString l). split; reflexivity.
  - rewrite (priceMatches_occurrences 0 text I).
    destruct (priceOccurrences text); [reflexivity | now split].
Qed.

(** Two prices side by side, and a dollar sign with no digit after it. *)
Example extractPrices_all_matches :
  extractPrices "from $1,299.50$15 to $ 20 or $7." true
  = strings ["$1,299.50"; "$15"; "$7."].
Proof. reflexivity. Qed.

(** ** Generic fields *)

Lemma mentions_includes (fieldName line : string) :
  includes (toLowerCase line) (toLowerCase fieldName) = true
  <-> mentions fieldName line.
Proof. apply includes_occursIn. Qed.

Lemma filter_none {A : Type} (f : A -> bool) (l : list A) :
  Forall (fun x => f x = false) l -> filter f l = [].
Proof.
  induction 1 as [|x l Hx _ IH]; simpl; [reflexivity|]. now rewrite Hx.
Qed.

Lemma not_mentions (fieldName : string) (lines : list string) :
  Forall (fun line => ~ mentions fieldName line) lines ->
  Forall (fun line =>
            includes (toLowerCase line) (toLowerCase fieldName) = false) lines.
Proof.
  intros H. eapply Forall_impl; [|exact H]. intros line Hline. cbv beta in *.
  destruct (includes _ _) eqn:E; [|reflexivity].
  exfalso. apply Hline. now apply mentions_includes.
Qed.

Lemma mentioning_filter (fieldName : string) (lines : list string) :
  mentioning fieldName lines
    (filter (fun line => includes (toLowerCase line) (toLowerCase fieldName))
       lines).
Proof.
  induction lines as [|line lines IH]; cbn [filter]; [constructor|].
  destruct (includes (toLowerCase line) (toLowerCase fieldName)) eqn:E.
  - apply mentioning_keep; [now apply mentions_includes | exact IH].
  - apply mentioning_skip; [|exact IH].
    intros H. apply mentions_includes in H. congruence.
Qed.

Lemma mentioning_unique (fieldName : string) (lines kept kept' : list string) :
  mentioning fieldName lines kept -> mentioning fieldName lines kept' ->
  kept' = kept.
Proof.
  intros H. revert kept'.
  induction H as [|line lines kept Hline _ IH|line lines kept Hline _ IH];
    intros kept' H'; inversion H'; subst;
    try reflexivity; try contradiction.
  - f_equal. now apply IH.
  - now apply IH.
Qed.

(** X14.  A field without a strategy of its own is looked for line by line,
    whatever the case of the letters.  Let [kept] be the lines of the text
    that mention the field name, all of them, in text order.  When there is
    none the result is nothing; otherwise the single value is the first of
    them, trimmed, and with [multiple] the value is the list [kept] itself,
    the lines as they stand in the text. *)
Theorem extractGenericField_lines (text fieldName : string) :
  exists kept,
    mentioning fieldName (splitLines text) kept
    /\ (forall kept', mentioning fieldName (splitLines text) kept' -> kept' = kept)
    /\ match kept with
       | [] => forall multiple, extractGenericField text fieldName multiple = VNull
       | first :: _ =>
           extractGenericField text fieldName false = VString (trim first)
           /\ extractGenericField text fieldName true = strings kept
       end.
Proof.
  pose proof (mentioning_filter fieldName (splitLines text)) as Hkept.
  eexists. split; [exact Hkept|]. split.
  - intros kept' H'. exact (mentioning_unique _ _ _ _ Hkept H').
  - unfold extractGenericField.
    destruct (filter _ (splitLines text)); [reflexivity | now split].
Qed.

Example extractGenericField_address :
  let page := "Contact" ++ nl ++ "  Address: 1 Main St  " ++ nl ++ "Hours"
              ++ nl ++ "Billing ADDRESS: same" in
  extractGenericField page "address" false = VString "Address: 1 Main St"
  /\ extractGenericField page "address" true
     = strings ["  Address: 1 Main St  "; "Billing ADDRESS: same"]
  /\ extractGenericField page "phone" false = VNull.
Proof. repeat split. Qed.

(** ** The extraction prompt *)

Lemma length_append (a b : string) :
  String.length (a ++ b) = String.length a + String.length b.
Proof. induction a as [|x a IH]; simpl; [reflexivity | now rewrite IH]. Qed.

Lemma length_substring_start (n : nat) (s : string) :
  String.length (String.substring 0 n s) = Nat.min n (String.length s).
Proof.
  revert n. induction s as [|c s IH]; intros [|n]; simpl; try reflexivity.
  now rewrite IH.
Qed.

Lemma substring_whole (n : nat) (s : string) :
  String.length s <= n -> String.substring 0 n s = s.
Proof.
  revert n. induction s as [|c s IH]; intros [|n]; simpl; intros Hlen;
    try reflexivity; try lia.
  f_equal. apply IH. lia.
Qed.

Lemma substring_prefix (n : nat) (s : string) :
  exists rest, s = String.substring 0 n s ++ rest.
Proof.
  revert n. induction s as [|c s IH]; intros [|n]; simpl.
  - now exists EmptyString.
  - now exists EmptyString.
  - now exists (String c s).
  - destruct (IH n) as [rest Hrest]. exists rest. now rewrite <- Hrest.
Qed.

(** X15.  The prompt carries at most [contentBudget] (6000) characters of the
    page: content within the budget goes in whole and unmarked, longer
    content is cut to its first 6000 characters followed by the truncation
    marker, and the prompt is never longer than 960 characters plus the URL,
    the instructions and the budget. *)
Theorem buildExtractionPrompt_budget (content instructions url : string) :
  (String.length content <= contentBudget -> contentExcerpt content = content)
  /\ (contentBudget < String.length content ->
      exists kept dropped,
        content = kept ++ dropped
        /\ String.length kept = contentBudget
        /\ contentExcerpt content = kept ++ truncationMarker)
  /\ occursIn (contentExcerpt content)
       (buildExtractionPrompt content instructions url)
  /\ String.length (buildExtractionPrompt content instructions url)
     <= 960 + String.length url + String.length instructions + contentBudget.
Proof.
  split; [|split; [|split]].
  - unfold contentExcerpt. generalize contentBudget as budget. intros budget.
    intros Hshort. rewrite substring_whole by exact Hshort.
    destruct (Nat.ltb_spec budget (String.length content)); [lia|].
    clear. induction content as [|c s IH]; simpl; [reflexivity | now rewrite IH].
  - unfold contentExcerpt. generalize contentBudget as budget. intros budget.
    intros Hlong. destruct (substring_prefix budget content) as [dropped Hcut].
    exists (String.substring 0 budget content), dropped.
    split; [exact Hcut|]. split.
    + rewrite length_substring_start. lia.
    + destruct (Nat.ltb_spec budget (String.length content)); [reflexivity | lia].
  - unfold buildExtractionPrompt.
    exists (promptToUrl ++ url ++ promptToInstructions ++ instructions
            ++ promptToContent), promptGuidelines.
    now rewrite !append_assoc.
  - unfold buildExtractionPrompt, contentExcerpt.
    rewrite !length_append, length_substring_start.
    assert (Hmarker : String.length
              (if (contentBudget <? String.length content)%nat
               then truncationMarker else EmptyString) <= 23)
      by (destruct (contentBudget <? String.length content)%nat;
          vm_compute; lia).
    assert (H1 : String.length promptToUrl = 114) by reflexivity.
    assert (H2 : String.length promptToInstructions = 35) by reflexivity.
    assert (H3 : String.length promptToContent = 32) by reflexivity.
    assert (H4 : String.length promptGuidelines = 756) by reflexivity.
    rewrite H1, H2, H3, H4. lia.
Qed.

(** ** Batches *)

Lemma slice_window {A : Type} (i : nat) (xs : list A) :
  i < length xs ->
  slice (Z.of_nat i) (Z.of_nat (i + batchSize)) xs = firstn batchSize (skipn i xs).
Proof.
  intros Hi. unfold slice, batchSize.
  destruct (Z.ltb_spec (Z.of_nat i) 0) as [Hneg|_]; [lia|].
  destruct (Z.ltb_spec (Z.of_nat (i + 3)) 0) as [Hneg|_]; [lia|].
  replace (Z.to_nat (Z.min (Z.of_nat i) (Z.of_nat (length xs)))) with i by lia.
  destruct (Nat.le_gt_cases (i + 3) (length xs)) as [Hfull|Hshort].
  - f_equal. lia.
  - replace (Z.to_nat _) with (length (skipn i xs))
      by (rewrite length_skipn; lia).
    rewrite firstn_all. symmetry. apply firstn_all2.
    rewrite length_skipn. lia.
Qed.

Lemma batchLoop_partition (allUrls : list string) (turns i : nat) :
  length allUrls - i <= turns ->
  concat (map fst (batchLoop turns i allUrls)) = skipn i allUrls
  /\ Forall (fun batch => 1 <= length (fst batch) <= batchSize)
       (batchLoop turns i allUrls)
  /\ length (batchLoop turns i allUrls) = (length allUrls - i + 2) / 3
  /\ map snd (batchLoop turns i allUrls)
     = match batchLoop turns i allUrls with
       | [] => []
       | _ :: rest => (repeat true (length rest) ++ [false])%list
       end.
Proof.
  revert i. induction turns as [|turns IH]; intros i Hturns.
  - cbn [batchLoop map concat length].
    replace (length allUrls - i + 2) with 2 by lia.
    rewrite skipn_all2 by lia. repeat split. constructor.
  - cbn [batchLoop]. destruct (Nat.ltb_spec i (length allUrls)) as [Hi|Hi].
    + destruct (IH (i + batchSize)) as [Hcat [Hsize [Hlen Hflags]]];
        [unfold batchSize; lia|].
      cbn [map concat fst snd length]. rewrite Hcat, (slice_window i _ Hi).
      split; [|split; [|split]].
      * rewrite <- (firstn_skipn batchSize (skipn i allUrls)) at 2.
        f_equal. rewrite skipn_skipn. f_equal. lia.
      * constructor; [|exact Hsize]. cbn [fst].
        rewrite length_firstn, length_skipn. unfold batchSize. lia.
      * rewrite Hlen. unfold batchSize.
        destruct (Nat.le_gt_cases 3 (length allUrls - i)) as [Hfull|Hshort].
        -- replace (length allUrls - i + 2)
             with (length allUrls - (i + 3) + 2 + 1 * 3) by lia.
           rewrite Nat.div_add by discriminate. lia.
        -- replace (length allUrls - (i + 3) + 2) with 2 by lia.
           assert (Hcases : length allUrls - i = 1 \/ length allUrls - i = 2)
             by lia.
           destruct Hcases as [-> | ->]; reflexivity.
      * rewrite Hflags. unfold batchSize in *.
        destruct (Nat.ltb_spec (i + 3) (length allUrls)) as [Hmore|Hlast].
        -- destruct (batchLoop turns (i + 3) allUrls) as [|b rest] eqn:E.
           ++ exfalso. cbn [length] in Hlen.
              assert (Hthree : 3 <= length allUrls - (i + 3) + 2) by lia.
              pose proof (Nat.Div0.div_le_mono 3 (length allUrls - (i + 3) + 2) 3
                            Hthree) as Hd.
              rewrite Nat.div_same in Hd by discriminate. lia.
           ++ reflexivity.
        -- destruct (batchLoop turns (i + 3) allUrls) as [|b rest] eqn:E.
           ++ reflexivity.
           ++ exfalso. cbn [length] in Hlen.
              replace (length allUrls - (i + 3) + 2) with 2 in Hlen by lia.
              discriminate Hlen.
    + cbn [map concat length].
      replace (length allUrls - i + 2) with 2 by lia.
      rewrite skipn_all2 by lia. repeat split. constructor.
Qed.

(** X16.  The batches of a job partition its URL list in order: every URL is in
    exactly one batch, each batch has between one and three URLs, there are
    as many batches as the count of URLs divided by three, rounded up, and
    the delay is awaited after every batch but the last. *)
Theorem processJobBatches_partition (allUrls : list string) :
  concat (map fst (processJobBatches allUrls)) = allUrls
  /\ Forall (fun batch => 1 <= length (fst batch) <= 3)
       (processJobBatches allUrls)
  /\ length (processJobBatches allUrls) = (length allUrls + 2) / 3
  /\ map snd (processJobBatches allUrls)
     = match processJobBatches allUrls with
       | [] => []
       | _ :: rest => (repeat true (length rest) ++ [false])%list
       end.
Proof.
  unfold processJobBatches.
  destruct (batchLoop_partition allUrls (length allUrls) 0)
    as [Hcat [Hsize [Hlen Hflags]]]; [lia|].
  rewrite Nat.sub_0_r in Hlen. cbn [skipn] in Hcat.
  repeat split; assumption.
Qed.

Example processJobBatches_seven :
  processJobBatches ["u1"; "u2"; "u3"; "u4"; "u5"; "u6"; "u7"]
  = [(["u1"; "u2"; "u3"], true); (["u4"; "u5"; "u6"], true); (["u7"], false)].
Proof. reflexivity. Qed.

(** ** Ratings and descriptions *)

Lemma toLowerCase_append (a b : string) :
  toLowerCase (a ++ b) = toLowerCase a ++ toLowerCase b.
Proof. induction a as [|x a IH]; simpl; [reflexivity | now rewrite IH]. Qed.

Lemma literal_append (lit s m r : string) :
  Pattern.literal lit s = Some (m, r) -> s = m ++ r /\ toLowerCase m = lit.
Proof.
  revert s m r. induction lit as [|a lit IH]; intros s m r; simpl.
  - intros [= <- <-]. now split.
  - destruct s as [|c s]; [discriminate|].
    destruct (Ascii.eqb_spec a (lowerChar c)) as [->|]; [|discriminate].
    destruct (Pattern.literal lit s) as [[m' r']|] eqn:E; [|discriminate].
    intros [= <- <-]. destruct (IH _ _ _ E) as [-> Hlow].
    simpl. now rewrite Hlow.
Qed.

Lemma numberAt_append (s num r : string) :
  Pattern.numberAt s = Some (num, r) ->
  s = num ++ r
  /\ exists c rest, num = String c rest /\ Pattern.isDigit c = true.
Proof.
  unfold Pattern.numberAt.
  destruct (Pattern.span Pattern.isDigit s) as [a r1] eqn:Ha.
  destruct (nonEmpty a) eqn:Hne; [|discriminate].
  destruct (Pattern.optDot r1) as [dot r2] eqn:Hdot.
  destruct (Pattern.span Pattern.isDigit r2) as [b r3] eqn:Hb.
  intros [= <- <-].
  apply span_append in Ha as Hs. apply optDot_append in Hdot as Hr1.
  apply span_append in Hb as Hr2. split.
  - subst s r1 r2. now rewrite !append_assoc.
  - destruct a as [|x a]; [discriminate|]. exists x, (a ++ dot ++ b).
    split; [reflexivity|]. apply (span_all _ _ _ _ x Ha). now left.
Qed.

Lemma occursIn_prepend (a m x : string) : occursIn m x -> occursIn m (a ++ x).
Proof.
  intros [before [after ->]]. exists (a ++ before), after.
  now rewrite append_assoc.
Qed.

Lemma occursIn_head (m b : string) : occursIn m (m ++ b).
Proof. now exists EmptyString, b. Qed.

(** What the rating pattern matches at the start of a string. *)
Lemma ratingAt_prefix (s m : string) :
  Pattern.ratingAt s = Some m ->
  (exists rest, s = m ++ rest)
  /\ (exists c tail, m = String c tail /\ Pattern.isDigit c = true)
  /\ (occursIn "out of" (toLowerCase m)
      \/ occursIn "/" (toLowerCase m)
      \/ occursIn "star" (toLowerCase m)).
Proof.
  unfold Pattern.ratingAt.
  destruct (Pattern.numberAt s) as [[num r]|] eqn:Hnum; [|discriminate].
  apply numberAt_append in Hnum. destruct Hnum as [-> [c [tail [-> Hc]]]].
  destruct (Pattern.span isWhite r) as [w r1] eqn:Hw.
  apply span_append in Hw. subst r.
  set (separator := match Pattern.literal "out of" r1 with
                    | Some x => Some x
                    | None => Pattern.literal "/" r1
                    end).
  assert (Hsep : forall sep r2, separator = Some (sep, r2) ->
                   r1 = sep ++ r2
                   /\ (toLowerCase sep = "out of" \/ toLowerCase sep = "/")).
  { intros sep r2. unfold separator.
    destruct (Pattern.literal "out of" r1) as [[x y]|] eqn:E.
    - intros [= <- <-]. apply literal_append in E. tauto.
    - intros E'. apply literal_append in E'. tauto. }
  destruct separator as [[sep r2]|] eqn:Esep.
  - destruct (Hsep sep r2 eq_refl) as [-> Hlow].
    destruct (Pattern.span isWhite r2) as [w2 r3] eqn:Hw2.
    destruct (Pattern.span Pattern.isDigit r3) as [d r4] eqn:Hd.
    apply span_append in Hw2. apply span_append in Hd. subst r2 r3.
    destruct (nonEmpty d).
    + intros [= <-]. split; [|split].
      * exists r4. simpl. f_equal. now rewrite !append_assoc.
      * now exists c, (tail ++ w ++ sep ++ w2 ++ d).
      * change (String c tail ++ w ++ sep ++ w2 ++ d)
          with (String c (tail ++ w ++ sep ++ w2 ++ d)).
        cbn [toLowerCase]. rewrite !toLowerCase_append.
        destruct Hlow as [-> | ->].
        -- left. apply occursIn_tail. do 2 apply occursIn_prepend.
           apply occursIn_head.
        -- right. left. apply occursIn_tail. do 2 apply occursIn_prepend.
           apply occursIn_head.
    + destruct (Pattern.literal "star" (sep ++ w2 ++ d ++ r4))
        as [[star r5]|] eqn:Estar; [|discriminate].
      exfalso. apply literal_append in Estar. destruct Estar as [Hcut Hstar].
      destruct star as [|x star]; [discriminate|].
      destruct sep as [|y sep]; [destruct Hlow; discriminate|].
      simpl in Hcut. injection Hcut as <- _.
      simpl in Hstar, Hlow. destruct Hlow as [Hlow|Hlow]; congruence.
  - destruct (Pattern.literal "star" r1) as [[star r2]|] eqn:Estar;
      [|discriminate].
    apply literal_append in Estar. destruct Estar as [-> Hstar].
    intros [= <-]. split; [|split].
    + destruct r2 as [|x r2].
      * exists EmptyString. simpl. f_equal.
        now rewrite !append_assoc.
      * destruct (Ascii.eqb (lowerChar x) "s").
        -- exists r2. simpl. f_equal. now rewrite !append_assoc.
        -- exists (String x r2). simpl. f_equal. now rewrite !append_assoc.
    + eexists c, _. split; [reflexivity | exact Hc].
    + right. right.
      cbn [append toLowerCase]. rewrite !toLowerCase_append, Hstar.
      apply occursIn_tail. do 2 apply occursIn_prepend. apply occursIn_head.
Qed.

Lemma firstRating_sound (s m : string) :
  Pattern.firstRating s = Some m ->
  occursIn m s
  /\ (exists c tail, m = String c tail /\ Pattern.isDigit c = true)
  /\ (occursIn "out of" (toLowerCase m)
      \/ occursIn "/" (toLowerCase m)
      \/ occursIn "star" (toLowerCase m)).
Proof.
  induction s as [|c s IH]; cbn [Pattern.firstRating].
  - destruct (Pattern.ratingAt EmptyString) eqn:E; [|discriminate].
    intros [= <-]. apply ratingAt_prefix in E.
    destruct E as [[rest Hrest] H]. split; [|exact H].
    exists EmptyString, rest. exact Hrest.
  - destruct (Pattern.ratingAt (String c s)) eqn:E.
    + intros [= <-]. apply ratingAt_prefix in E.
      destruct E as [[rest Hrest] H]. split; [|exact H].
      exists EmptyString, rest. exact Hrest.
    + intros Hm. apply IH in Hm. destruct Hm as [Hocc H].
      split; [now apply occursIn_tail | exact H].
Qed.

(** X17.  A rating, when one is found, is a piece of the text that begins with a
    digit and contains [out of], a slash or [star], whatever the case of the
    letters; the result is never anything but such a string or nothing. *)
Theorem extractRating_sound (text : string) :
  extractRating text = VNull
  \/ exists m,
       extractRating text = VString m
       /\ occursIn m text
       /\ (exists c tail, m = String c tail /\ Pattern.isDigit c = true)
       /\ (occursIn "out of" (toLowerCase m)
           \/ occursIn "/" (toLowerCase m)
           \/ occursIn "star" (toLowerCase m)).
Proof.
  unfold extractRating. destruct (Pattern.firstRating text) as [m|] eqn:E.
  - right. exists m. split; [reflexivity|]. now apply firstRating_sound.
  - now left.
Qed.

Lemma filter_short (lines : list string) :
  Forall (fun line => String.length (trim line) <= 50) lines ->
  filter (fun line => (50 <? String.length (trim line))%nat) lines = [].
Proof.
  intros H. apply filter_none. eapply Forall_impl; [|exact H].
  intros line Hline. cbv beta in *. apply Nat.ltb_ge. exact Hline.
Qed.

(** X18.  The description is the first line of the text whose trimmed length
    exceeds 50 characters, trimmed; shorter lines before it are passed over,
    and a text with no such line has no description. *)
Theorem extractDescription_first_long_line (text : string) :
  (Forall (fun line => String.length (trim line) <= 50) (splitLines text) ->
   extractDescription text = VNull)
  /\ (forall before line after,
        splitLines text = (before ++ line :: after)%list ->
        Forall (fun l => String.length (trim l) <= 50) before ->
        50 < String.length (trim line) ->
        extractDescription text = VString (trim line)).
Proof.
  unfold extractDescription. split.
  - intros Hshort. now rewrite filter_short.
  - intros before line after Hsplit Hbefore Hline.
    rewrite Hsplit, filter_app, (filter_short before Hbefore).
    cbn [app filter]. apply Nat.ltb_lt in Hline as Hb. rewrite Hb.
    unfold firstTrimmedOrNull.
    destruct (trim line) eqn:E; [simpl in Hline; lia | reflexivity].
Qed.

(** ** The defaults of the engine *)

Lemma pageLimit_constructor (given : SettingsArgument) :
  orElseZ (maxPages (constructorSettings given)) 50 = pageLimit given.
Proof.
  unfold pageLimit, constructorSettings, spreadOver. cbn [maxPages].
  destruct (argMaxPages given) as [|[[| |]|]]; reflexivity.
Qed.

(** X19.  Through the constructor the page limit of URL expansion is 10 when
    the caller leaves [maxPages] out, 50 when the caller writes [maxPages]
    as [undefined] or as zero (what is written replaces the default of 10,
    and then counts as missing), and the number written otherwise.  URL
    expansion returns the targets' contributions, each URL at its first
    occurrence, cut at that limit.  When the caller leaves
    [followPagination] out, no page is fetched and the contributions are
    the targets themselves. *)
Theorem expandUrls_engine_defaults (given : SettingsArgument)
    (targetUrls : list string) (w : World) (c : Calls) :
  (exists c',
     expandUrls (constructorSettings given) targetUrls w c
     = (Returned
          (slice 0 (pageLimit given)
             (firstOccurrences
                (contributions (constructorSettings given) (scrapeAnswer w)
                   (scrapeCalls c) targetUrls))), c'))
  /\ (argMaxPages given = Absent -> pageLimit given = 10%Z)
  /\ (pageLimit given = 50%Z <->
      argMaxPages given = Present None
      \/ argMaxPages given = Present (Some 0%Z)
      \/ argMaxPages given = Present (Some 50%Z))
  /\ (forall n, argMaxPages given = Present (Some n) -> n <> 0%Z ->
                pageLimit given = n)
  /\ (argFollowPagination given = Absent ->
      expandUrls (constructorSettings given) targetUrls w c
      = (Returned (slice 0 (pageLimit given) (firstOccurrences targetUrls)), c)).
Proof.
  split; [|split; [|split; [|split]]].
  - rewrite <- pageLimit_constructor. apply expandUrls_value.
  - unfold pageLimit. now intros ->.
  - unfold pageLimit. destruct (argMaxPages given) as [|[[|n|n]|]].
    + split; [discriminate | intros [H|[H|H]]; discriminate].
    + split; [tauto | reflexivity].
    + split; [intros ->; tauto | intros [H|[H|H]]; congruence].
    + split; [discriminate | intros [H|[H|H]]; discriminate].
    + split; [tauto | reflexivity].
  - unfold pageLimit. intros n -> Hn. destruct n; [contradiction | reflexivity..].
  - intros Hoff. rewrite <- pageLimit_constructor.
    apply expandUrls_without_pagination_value.
    cbn [constructorSettings followPagination]. now rewrite Hoff.
Qed.

(** The engine made with no settings, and the engine made with [maxPages]
    written as [undefined]: fifty targets are cut to 10 by the first and
    not at all by the second. *)
Example expandUrls_maxPages_undefined :
  let targets := map JSString.ofNat (seq 0 50) in
  length (slice 0 (pageLimit noSettings) (firstOccurrences targets)) = 10
  /\ length
       (slice 0
          (pageLimit
             {| argMaxPages := Present None; argDelay := Absent;
                argTimeout := Absent; argFollowPagination := Absent;
                argEnableJavaScript := Absent |})
          (firstOccurrences targets)) = 50.
Proof. split; vm_compute; reflexivity. Qed.

(** X20.  An empty list of custom rules is used as it stands (it is not replaced
    by a built-in rule set): nothing is extracted, the coverage score is
    0/0, so the confidence is not a number and the pass reports failure,
    whatever the page holds. *)
Theorem extractFromUrl_no_rules (url : string) (w : World) (c : Calls)
    (response : ScrapeResponse) :
  scrapeAnswer w (scrapeCalls c) = Returned response ->
  exists result c',
    extractFromUrl url (Some []) w c = (Returned result, c')
    /\ confidence result = NotANumber
    /\ success result = false
    /\ Object.keys (data result) = ["metadata"]
    /\ errors result = None.
Proof.
  intros Hfetch.
  destruct (extractFromUrl_fetch_returns url (Some []) w c response Hfetch)
    as [result [c' [Hrun [[Hconf [Hsucc [Hdata Herr]]] _]]]].
  exists result, c'. split; [exact Hrun|].
  cbn [orElse] in Hconf, Hdata.
  assert (Hnan : confidence result = NotANumber) by (rewrite Hconf; reflexivity).
  split; [exact Hnan|]. split; [now rewrite Hsucc, Hnan|].
  split; [now rewrite Hdata | exact Herr].
Qed.

Lemma extractFromUrl_no_rules_witness :
  exists result c',
    extractFromUrl "https://shop.example/item" (Some [])
      (fetchOnlyWorld productPage) noCalls
    = (Returned result, c')
    /\ confidence result = NotANumber
    /\ success result = false.
Proof.
  destruct (extractFromUrl_no_rules "https://shop.example/item"
              (fetchOnlyWorld productPage) noCalls productPage eq_refl)
    as [result [c' [Hrun [Hnan [Hfail _]]]]].
  exists result, c'. repeat split; assumption.
Defined.

(** ** The merge rule *)


